(** * Whisper transcriber: a shallow embedding of [transcriber.py]

    The program has two classes.  [WhisperWorker] is a thread whose [run]
    method checks that the audio file exists, loads a Whisper model,
    transcribes the file, writes the transcript next to the process and
    reports what happened through four Qt signals.  [TranscriberApp] is the
    main window: it validates the form, starts one worker and reacts to the
    worker's signals.

    The embedding keeps that shape.  Python strings are [string]s (a [str]
    is represented by its UTF-8 bytes, which is also what a text file opened
    with [encoding="utf-8"] stores; on POSIX no newline translation takes
    place).  The disk is a finite map from the path handed to the operating
    system to a node.  The Whisper engine, the operating system's answers to
    [open]/[write] and the clock are an explicit environment [Env].
    [run] is written in a small state-and-exception monad so that
    [try]/[except] reads as in the source.  The window is a record of the
    widget properties the methods read or write; the event loop is a step
    function over the window, the disk and the live worker threads. *)

From Stdlib Require Import ZArith Ascii String.
From stdpp Require Import gmap strings list.

Local Open Scope Z_scope.

(** ** Python [str] operations used by [os.path] *)

Module str.

(** [s.rfind(c)] for a one-character [c]: the highest index at which [c]
    occurs, [-1] when it does not occur. *)
Fixpoint rfind (s : string) (c : ascii) : Z :=
  match s with
  | EmptyString => -1
  | String a s' =>
      let r := rfind s' c in
      if (0 <=? r)%Z then r + 1 else if Ascii.eqb a c then 0 else -1
  end.

Fixpoint drop (n : nat) (s : string) : string :=
  match n, s with
  | O, _ => s
  | S _, EmptyString => EmptyString
  | S k, String _ s' => drop k s'
  end.

Fixpoint take (n : nat) (s : string) : string :=
  match n, s with
  | O, _ => EmptyString
  | S _, EmptyString => EmptyString
  | S k, String a s' => String a (take k s')
  end.

Definition len (s : string) : Z := Z.of_nat (String.length s).

(** Python's treatment of a slice bound: a negative bound counts from the
    end, and every bound is clipped to [0 .. len s]. *)
Definition clamp (s : string) (i : Z) : nat :=
  Z.to_nat (Z.min (len s) (if (i <? 0)%Z then Z.max 0 (len s + i) else i)).

(** [s[i:j]], [s[i:]] and [s[:j]]. *)
Definition slice (s : string) (i j : Z) : string :=
  take (clamp s j - clamp s i) (drop (clamp s i) s).
Definition slice_from (s : string) (i : Z) : string := drop (clamp s i) s.
Definition slice_to (s : string) (j : Z) : string := take (clamp s j) s.

(** [c in s]. *)
Fixpoint contains_char (c : ascii) (s : string) : bool :=
  match s with
  | EmptyString => false
  | String a s' => Ascii.eqb a c || contains_char c s'
  end.

(** [t in s] for strings, as a proposition. *)
Definition contains (s t : string) : Prop :=
  ∃ before after, s = before +:+ t +:+ after.

End str.

(** ** [os.path] (the POSIX flavour, [posixpath] and [genericpath]) *)

Module os_path.

Definition sep : ascii := "/"%char.
Definition extsep : ascii := "."%char.

(** [posixpath.basename]:
    [i = p.rfind(sep) + 1; return p[i:]]. *)
Definition basename (p : string) : string :=
  let i := str.rfind p sep + 1 in
  str.slice_from p i.

(** The [while filenameIndex < dotIndex] loop of [genericpath._splitext];
    [n] is the loop's variant [dotIndex - filenameIndex], so reaching [O]
    is the loop's own exit. *)
Fixpoint skip_leading_dots (n : nat) (p : string) (filenameIndex dotIndex : Z)
  : string * string :=
  match n with
  | O => (p, str.slice_to p 0)
  | S k =>
      if negb (String.eqb (str.slice p filenameIndex (filenameIndex + 1))
                          (String extsep EmptyString))
      then (str.slice_to p dotIndex, str.slice_from p dotIndex)
      else skip_leading_dots k p (filenameIndex + 1) dotIndex
  end.

(** [genericpath._splitext(p, sep, None, extsep)]. *)
Definition _splitext (p : string) : string * string :=
  let sepIndex := str.rfind p sep in
  let dotIndex := str.rfind p extsep in
  if (sepIndex <? dotIndex)%Z
  then skip_leading_dots (Z.to_nat (dotIndex - (sepIndex + 1))) p (sepIndex + 1) dotIndex
  else (p, str.slice_to p 0).

Definition splitext (p : string) : string * string := _splitext p.

End os_path.

(** ** The disk *)

Inductive node :=
| RegularFile (data : string)
| Directory.

(** The disk as the paths the program names: a path is a key, and two
    names that a link makes denote one file are two entries. *)
Abbreviation filesystem := (gmap string node).

(** [os.path.exists(p)]: some node is reachable under [p]; the empty path
    names nothing. *)
Definition path_exists (fs : filesystem) (p : string) : bool :=
  match p with
  | EmptyString => false
  | _ => bool_decide (is_Some (fs !! p))
  end.

(** ** Exceptions and the environment of a run *)

(** An instance of Python's [Exception] (what [except Exception] catches);
    [exc_str e] is [str(e)], the text that [f"{e}"] produces. *)
Record exn := Exception { exc_str : string }.

Inductive outcome (A : Type) :=
| Returns (a : A)
| Raises (e : exn).
Arguments Returns {A} a.
Arguments Raises {A} e.

(** A loaded Whisper model; [device] is [str(model.device)]. *)
Record Model := { device : string }.

(** What the worker cannot decide by itself: the engine's two calls, the
    operating system's answer when the output file is opened and written,
    and the rendering of the elapsed time (the two [time.time()] readings
    and the [.2f] format are floating point and are kept as the text they
    produce).  An engine call is taken to end, by returning or by raising
    an [Exception]; what the engine itself writes (the model weights it
    downloads on first use) is not on the modelled disk, which holds the
    audio file and what [run] writes. *)
Record Env := {
  load_model : string → outcome Model;
  transcribe : Model → string → outcome (gmap string string);
  (** [None]: the file is opened for writing; [Some e]: [open] raises [e]. *)
  os_open_w : string → option exn;
  (** [None]: all the data reaches the file; [Some (e, n)]: [e] is raised
      after [n] bytes have reached it. *)
  os_write : string → string → option (exn * nat);
  elapsed_time_2f : string
}.

(** ** The worker thread *)

Inductive signal :=
| started_transcription (message : string)
| progress_update (message : string)
| transcription_complete (summary : string)
| transcription_error (message : string).

Definition is_terminal (s : signal) : bool :=
  match s with
  | transcription_complete _ | transcription_error _ => true
  | _ => false
  end.

Record WhisperWorker := {
  audio_path : string;
  model_name : string
}.

(** What a running thread acts on: the disk and the signals emitted so far
    (oldest first). *)
Record thread_state := {
  disk : filesystem;
  emitted : list signal
}.

Definition Py (A : Type) : Type := thread_state → outcome A * thread_state.

Definition ret {A} (a : A) : Py A := λ st, (Returns a, st).

Definition bind {A B} (m : Py A) (k : A → Py B) : Py B :=
  λ st, match m st with
        | (Returns a, st') => k a st'
        | (Raises e, st') => (Raises e, st')
        end.

#[export] Instance Py_ret : MRet Py := @ret.
#[export] Instance Py_bind : MBind Py := λ A B k m, bind m k.

(** [try: body except Exception as e: handler(e)]. *)
Definition try_except {A} (body : Py A) (handler : exn → Py A) : Py A :=
  λ st, match body st with
        | (Returns a, st') => (Returns a, st')
        | (Raises e, st') => handler e st'
        end.

Definition call {A} (o : outcome A) : Py A := λ st, (o, st).

Definition emit (s : signal) : Py unit :=
  λ st, (Returns tt, {| disk := disk st; emitted := emitted st ++ [s] |}).

(** [result[key]] on a [dict]; a missing key raises [KeyError(key)], whose
    [str] is the key's [repr]. *)
Definition getitem (d : gmap string string) (key : string) : outcome string :=
  match d !! key with
  | Some v => Returns v
  | None => Raises (Exception ("'" +:+ key +:+ "'"))
  end.

(** [open(name, "w", encoding="utf-8")]: a directory cannot be opened for
    writing; otherwise the operating system decides, and a granted open
    creates the file or truncates it. *)
Definition open_w (env : Env) (name : string) : Py string :=
  λ st, match disk st !! name with
        | Some Directory =>
            (Raises (Exception ("[Errno 21] Is a directory: '" +:+ name +:+ "'")), st)
        | _ =>
            match os_open_w env name with
            | Some e => (Raises e, st)
            | None =>
                (Returns name,
                 {| disk := <[name := RegularFile ""]> (disk st);
                    emitted := emitted st |})
            end
        end.

Definition file_data (fs : filesystem) (name : string) : string :=
  match fs !! name with
  | Some (RegularFile d) => d
  | _ => ""
  end.

(** [f.write(data)] followed by the flush of the [with] block's exit: the
    data is appended to what the file holds. *)
Definition write (env : Env) (f : string) (data : string) : Py unit :=
  λ st, match os_write env f data with
        | None =>
            (Returns tt,
             {| disk := <[f := RegularFile (file_data (disk st) f +:+ data)]> (disk st);
                emitted := emitted st |})
        | Some (e, n) =>
            (Raises e,
             {| disk := <[f := RegularFile (file_data (disk st) f +:+ str.take n data)]> (disk st);
                emitted := emitted st |})
        end.

(** [base_name] and [output_filename] of [run]. *)
Definition base_name (audio_path : string) : string :=
  fst (os_path.splitext (os_path.basename audio_path)).

Definition output_filename (audio_path model_name : string) : string :=
  base_name audio_path +:+ "_" +:+ model_name +:+ "_transcript.txt".

(** The line feed of ["\n"]. *)
Definition LF : string := String (ascii_of_nat 10) EmptyString.

Definition summary_text (env : Env) (output_filename full_transcript : string) : string :=
  "Transcription complete in " +:+ elapsed_time_2f env +:+ " seconds." +:+ LF
  +:+ "Result saved to: " +:+ output_filename +:+ LF +:+ LF
  +:+ "Full Transcript:" +:+ LF +:+ full_transcript.

Definition error_text (e : exn) : string :=
  "An unexpected error occurred: " +:+ exc_str e
  +:+ ". Check FFmpeg installation and file permissions.".

(** [WhisperWorker.run]. *)
Definition run (env : Env) (self : WhisperWorker) : Py unit :=
  λ st,
  if negb (path_exists (disk st) (audio_path self)) then
    emit (transcription_error
            ("Audio file not found at '" +:+ audio_path self +:+ "'.")) st
  else
    (emit (started_transcription
             ("Loading Whisper model: " +:+ model_name self +:+ "..."));;
     try_except
       (model ← call (load_model env (model_name self));
        emit (progress_update
                ("Model loaded successfully. Running on device: " +:+ device model
                 +:+ ". Starting transcription..."));;
        result ← call (transcribe env model (audio_path self));
        full_transcript ← call (getitem result "text");
        let output_filename := output_filename (audio_path self) (model_name self) in
        (f ← open_w env output_filename;
         write env f full_transcript);;
        emit (transcription_complete
                (summary_text env output_filename full_transcript)))
       (λ e, emit (transcription_error (error_text e)))) st.

(** A thread started on disk [fs]: the signals it emits and the disk it
    leaves. *)
Definition run_thread (env : Env) (self : WhisperWorker) (fs : filesystem)
  : list signal * filesystem :=
  let st := snd (run env self {| disk := fs; emitted := [] |}) in
  (emitted st, disk st).

(** ** The main window *)

Inductive message_box :=
| QMessageBox_warning (title text : string)
| QMessageBox_critical (title text : string).

(** A non-editable [QComboBox]: its items, the index of the current one
    ([-1] when there is none) and whether it reacts to input. *)
Record QComboBox := {
  items : list string;
  currentIndex : Z;
  combo_enabled : bool
}.

Definition currentText (c : QComboBox) : string :=
  if (currentIndex c <? 0)%Z then ""
  else default "" (items c !! Z.to_nat (currentIndex c)).

(** [addItems]: the texts are appended; an empty box makes its first item
    current. *)
Definition addItems (texts : list string) (c : QComboBox) : QComboBox :=
  {| items := items c ++ texts;
     currentIndex :=
       match items c, texts with
       | [], _ :: _ => 0
       | _, _ => currentIndex c
       end;
     combo_enabled := combo_enabled c |}.

(** [findText]: the index of the first item equal to [text], [-1] when
    there is none. *)
Fixpoint findText_from (i : Z) (l : list string) (text : string) : Z :=
  match l with
  | [] => -1
  | x :: l' => if String.eqb x text then i else findText_from (i + 1) l' text
  end.

Definition findText (text : string) (c : QComboBox) : Z :=
  findText_from 0 (items c) text.

(** [setCurrentText] on a non-editable box selects the item found by
    [findText] and does nothing when there is none. *)
Definition setCurrentText (text : string) (c : QComboBox) : QComboBox :=
  let i := findText text c in
  if (-1 <? i)%Z
  then {| items := items c; currentIndex := i; combo_enabled := combo_enabled c |}
  else c.

Definition combo_setEnabled (b : bool) (c : QComboBox) : QComboBox :=
  {| items := items c; currentIndex := currentIndex c; combo_enabled := b |}.

Definition combo_setCurrentIndex (i : Z) (c : QComboBox) : QComboBox :=
  {| items := items c; currentIndex := i; combo_enabled := combo_enabled c |}.

(** The attributes of [TranscriberApp] and the widget properties its
    methods read or write.  Layout, fonts, the style sheet and placeholder
    texts hold no state that a method reads.  [message_boxes] records the
    modal boxes shown so far, oldest first. *)
Record TranscriberApp := {
  worker : option WhisperWorker;
  path_input_text : string;
  path_input_enabled : bool;
  browse_btn_enabled : bool;
  model_combo : QComboBox;
  transcribe_btn_enabled : bool;
  transcribe_btn_text : string;
  progress_bar_visible : bool;
  progress_bar_range : Z * Z;
  progress_bar_value : Z;
  status_label_text : string;
  output_text : string;
  message_boxes : list message_box
}.

(** Assignments to one attribute or widget property. *)

Definition set_worker (v : option WhisperWorker) (self : TranscriberApp) : TranscriberApp :=
  {| worker := v; path_input_text := path_input_text self;
     path_input_enabled := path_input_enabled self;
     browse_btn_enabled := browse_btn_enabled self;
     model_combo := model_combo self;
     transcribe_btn_enabled := transcribe_btn_enabled self;
     transcribe_btn_text := transcribe_btn_text self;
     progress_bar_visible := progress_bar_visible self;
     progress_bar_range := progress_bar_range self;
     progress_bar_value := progress_bar_value self;
     status_label_text := status_label_text self;
     output_text := output_text self; message_boxes := message_boxes self |}.

Definition set_path_input_text (v : string) (self : TranscriberApp) : TranscriberApp :=
  {| worker := worker self; path_input_text := v;
     path_input_enabled := path_input_enabled self;
     browse_btn_enabled := browse_btn_enabled self;
     model_combo := model_combo self;
     transcribe_btn_enabled := transcribe_btn_enabled self;
     transcribe_btn_text := transcribe_btn_text self;
     progress_bar_visible := progress_bar_visible self;
     progress_bar_range := progress_bar_range self;
     progress_bar_value := progress_bar_value self;
     status_label_text := status_label_text self;
     output_text := output_text self; message_boxes := message_boxes self |}.

Definition set_path_input_enabled (v : bool) (self : TranscriberApp) : TranscriberApp :=
  {| worker := worker self; path_input_text := path_input_text self;
     path_input_enabled := v; browse_btn_enabled := browse_btn_enabled self;
     model_combo := model_combo self;
     transcribe_btn_enabled := transcribe_btn_enabled self;
     transcribe_btn_text := transcribe_btn_text self;
     progress_bar_visible := progress_bar_visible self;
     progress_bar_range := progress_bar_range self;
     progress_bar_value := progress_bar_value self;
     status_label_text := status_label_text self;
     output_text := output_text self; message_boxes := message_boxes self |}.

Definition set_browse_btn_enabled (v : bool) (self : TranscriberApp) : TranscriberApp :=
  {| worker := worker self; path_input_text := path_input_text self;
     path_input_enabled := path_input_enabled self; browse_btn_enabled := v;
     model_combo := model_combo self;
     transcribe_btn_enabled := transcribe_btn_enabled self;
     transcribe_btn_text := transcribe_btn_text self;
     progress_bar_visible := progress_bar_visible self;
     progress_bar_range := progress_bar_range self;
     progress_bar_value := progress_bar_value self;
     status_label_text := status_label_text self;
     output_text := output_text self; message_boxes := message_boxes self |}.

Definition set_model_combo (v : QComboBox) (self : TranscriberApp) : TranscriberApp :=
  {| worker := worker self; path_input_text := path_input_text self;
     path_input_enabled := path_input_enabled self;
     browse_btn_enabled := browse_btn_enabled self; model_combo := v;
     transcribe_btn_enabled := transcribe_btn_enabled self;
     transcribe_btn_text := transcribe_btn_text self;
     progress_bar_visible := progress_bar_visible self;
     progress_bar_range := progress_bar_range self;
     progress_bar_value := progress_bar_value self;
     status_label_text := status_label_text self;
     output_text := output_text self; message_boxes := message_boxes self |}.

Definition set_transcribe_btn_enabled (v : bool) (self : TranscriberApp) : TranscriberApp :=
  {| worker := worker self; path_input_text := path_input_text self;
     path_input_enabled := path_input_enabled self;
     browse_btn_enabled := browse_btn_enabled self;
     model_combo := model_combo self; transcribe_btn_enabled := v;
     transcribe_btn_text := transcribe_btn_text self;
     progress_bar_visible := progress_bar_visible self;
     progress_bar_range := progress_bar_range self;
     progress_bar_value := progress_bar_value self;
     status_label_text := status_label_text self;
     output_text := output_text self; message_boxes := message_boxes self |}.

Definition set_transcribe_btn_text (v : string) (self : TranscriberApp) : TranscriberApp :=
  {| worker := worker self; path_input_text := path_input_text self;
     path_input_enabled := path_input_enabled self;
     browse_btn_enabled := browse_btn_enabled self;
     model_combo := model_combo self;
     transcribe_btn_enabled := transcribe_btn_enabled self;
     transcribe_btn_text := v;
     progress_bar_visible := progress_bar_visible self;
     progress_bar_range := progress_bar_range self;
     progress_bar_value := progress_bar_value self;
     status_label_text := status_label_text self;
     output_text := output_text self; message_boxes := message_boxes self |}.

Definition set_progress_bar_visible (v : bool) (self : TranscriberApp) : TranscriberApp :=
  {| worker := worker self; path_input_text := path_input_text self;
     path_input_enabled := path_input_enabled self;
     browse_btn_enabled := browse_btn_enabled self;
     model_combo := model_combo self;
     transcribe_btn_enabled := transcribe_btn_enabled self;
     transcribe_btn_text := transcribe_btn_text self;
     progress_bar_visible := v;
     progress_bar_range := progress_bar_range self;
     progress_bar_value := progress_bar_value self;
     status_label_text := status_label_text self;
     output_text := output_text self; message_boxes := message_boxes self |}.

Definition set_progress_bar_range (v : Z * Z) (self : TranscriberApp) : TranscriberApp :=
  {| worker := worker self; path_input_text := path_input_text self;
     path_input_enabled := path_input_enabled self;
     browse_btn_enabled := browse_btn_enabled self;
     model_combo := model_combo self;
     transcribe_btn_enabled := transcribe_btn_enabled self;
     transcribe_btn_text := transcribe_btn_text self;
     progress_bar_visible := progress_bar_visible self;
     progress_bar_range := v; progress_bar_value := progress_bar_value self;
     status_label_text := status_label_text self;
     output_text := output_text self; message_boxes := message_boxes self |}.

Definition set_progress_bar_value (v : Z) (self : TranscriberApp) : TranscriberApp :=
  {| worker := worker self; path_input_text := path_input_text self;
     path_input_enabled := path_input_enabled self;
     browse_btn_enabled := browse_btn_enabled self;
     model_combo := model_combo self;
     transcribe_btn_enabled := transcribe_btn_enabled self;
     transcribe_btn_text := transcribe_btn_text self;
     progress_bar_visible := progress_bar_visible self;
     progress_bar_range := progress_bar_range self; progress_bar_value := v;
     status_label_text := status_label_text self;
     output_text := output_text self; message_boxes := message_boxes self |}.

Definition set_status_label_text (v : string) (self : TranscriberApp) : TranscriberApp :=
  {| worker := worker self; path_input_text := path_input_text self;
     path_input_enabled := path_input_enabled self;
     browse_btn_enabled := browse_btn_enabled self;
     model_combo := model_combo self;
     transcribe_btn_enabled := transcribe_btn_enabled self;
     transcribe_btn_text := transcribe_btn_text self;
     progress_bar_visible := progress_bar_visible self;
     progress_bar_range := progress_bar_range self;
     progress_bar_value := progress_bar_value self; status_label_text := v;
     output_text := output_text self; message_boxes := message_boxes self |}.

Definition set_output_text (v : string) (self : TranscriberApp) : TranscriberApp :=
  {| worker := worker self; path_input_text := path_input_text self;
     path_input_enabled := path_input_enabled self;
     browse_btn_enabled := browse_btn_enabled self;
     model_combo := model_combo self;
     transcribe_btn_enabled := transcribe_btn_enabled self;
     transcribe_btn_text := transcribe_btn_text self;
     progress_bar_visible := progress_bar_visible self;
     progress_bar_range := progress_bar_range self;
     progress_bar_value := progress_bar_value self;
     status_label_text := status_label_text self; output_text := v;
     message_boxes := message_boxes self |}.

Definition set_message_boxes (v : list message_box) (self : TranscriberApp) : TranscriberApp :=
  {| worker := worker self; path_input_text := path_input_text self;
     path_input_enabled := path_input_enabled self;
     browse_btn_enabled := browse_btn_enabled self;
     model_combo := model_combo self;
     transcribe_btn_enabled := transcribe_btn_enabled self;
     transcribe_btn_text := transcribe_btn_text self;
     progress_bar_visible := progress_bar_visible self;
     progress_bar_range := progress_bar_range self;
     progress_bar_value := progress_bar_value self;
     status_label_text := status_label_text self;
     output_text := output_text self; message_boxes := v |}.

(** [QMessageBox.warning] / [QMessageBox.critical]: a modal box is shown
    and the call returns when the user dismisses it. *)
Definition show_message_box (b : message_box) (self : TranscriberApp) : TranscriberApp :=
  set_message_boxes (message_boxes self ++ [b]) self.

(** [TranscriberApp.update_ui_state]. *)
Definition update_ui_state (is_ready : bool) (self : TranscriberApp) : TranscriberApp :=
  let self := set_browse_btn_enabled is_ready self in
  let self := set_path_input_enabled is_ready self in
  let self := set_model_combo (combo_setEnabled is_ready (model_combo self)) self in
  let self := set_transcribe_btn_enabled is_ready self in
  if is_ready then
    let self := set_transcribe_btn_text "Start Transcription" self in
    set_progress_bar_visible false self
  else
    let self := set_transcribe_btn_text "Processing..." self in
    let self := set_progress_bar_range (0, 0) self in
    set_progress_bar_visible true self.

(** The widgets as their constructors in [init_ui] leave them, before
    [update_ui_state(True)]. *)
Definition fresh_widgets : TranscriberApp :=
  {| worker := None;
     path_input_text := ""; path_input_enabled := true;
     browse_btn_enabled := true;
     model_combo :=
       setCurrentText "medium"
         (addItems ["base"; "small"; "medium"; "large-v2"]
            {| items := []; currentIndex := -1; combo_enabled := true |});
     transcribe_btn_enabled := true;
     transcribe_btn_text := "Start Transcription";
     progress_bar_visible := false;
     progress_bar_range := (0, 100);
     progress_bar_value := 0;
     status_label_text := "Ready to transcribe.";
     output_text := "";
     message_boxes := [] |}.

(** [TranscriberApp.__init__], which sets [worker = None] and calls
    [init_ui]. *)
Definition init_ui : TranscriberApp :=
  let self := update_ui_state true fresh_widgets in
  set_output_text
    "⚠️ **Prerequisite:** Ensure FFmpeg is installed and accessible on your system for Whisper to process audio files correctly."
    self.

(** [TranscriberApp.select_audio_file]; [filepath] is what the file dialog
    returned, the empty string when it was cancelled. *)
Definition select_audio_file (filepath : string) (self : TranscriberApp) : TranscriberApp :=
  if negb (String.eqb filepath "") then set_path_input_text filepath self
  else self.

(** [TranscriberApp.start_transcription], on the disk as it is at the
    call.  The second component is the worker whose [start()] was called,
    if any. *)
Definition start_transcription (fs : filesystem) (self : TranscriberApp)
  : TranscriberApp * option WhisperWorker :=
  let audio_path := path_input_text self in
  let model_name := currentText (model_combo self) in
  if String.eqb audio_path "" || negb (path_exists fs audio_path) then
    (show_message_box
       (QMessageBox_warning "Input Error"
          "Please select a valid audio file before starting transcription.")
       self,
     None)
  else
    let self := update_ui_state false self in
    let self := set_output_text "" self in
    let self := set_status_label_text "Starting process..." self in
    let w := {| audio_path := audio_path; model_name := model_name |} in
    let self := set_worker (Some w) self in
    (self, Some w).

(** The four slots. *)
Definition handle_started (message : string) (self : TranscriberApp) : TranscriberApp :=
  set_status_label_text message self.

Definition handle_progress (message : string) (self : TranscriberApp) : TranscriberApp :=
  set_status_label_text message self.

Definition handle_complete (summary : string) (self : TranscriberApp) : TranscriberApp :=
  let self := set_output_text summary self in
  let self :=
    set_status_label_text "✅ Transcription Finished! Output saved to disk." self in
  let self := update_ui_state true self in
  set_worker None self.

Definition handle_error (message : string) (self : TranscriberApp) : TranscriberApp :=
  let self := set_status_label_text ("ERROR: " +:+ message) self in
  let self :=
    show_message_box (QMessageBox_critical "Transcription Error" message) self in
  let self := update_ui_state true self in
  set_worker None self.

(** The connections made in [start_transcription]: which slot a signal
    of the worker reaches. *)
Definition deliver (s : signal) (self : TranscriberApp) : TranscriberApp :=
  match s with
  | started_transcription m => handle_started m self
  | progress_update m => handle_progress m self
  | transcription_complete m => handle_complete m self
  | transcription_error m => handle_error m self
  end.

(** ** The application at run time *)

(** A worker thread after [start()]: its [run] has not begun, or it has
    run and some of its signals still wait in the main thread's event
    queue (oldest first).  A thread leaves the system when its last signal
    has been delivered.  This is the job in flight, from [start()] to the
    slot of its terminal signal; when the [QThread] object itself ends or
    is destroyed is not modelled. *)
Inductive thread :=
| Spawned (w : WhisperWorker)
| Reporting (queue : list signal).

Record System := {
  window : TranscriberApp;
  files : filesystem;
  threads : list thread
}.

(** What can happen next: the user acts on a widget, the operating system
    runs a spawned thread, the event loop delivers a queued signal, or
    another process changes the disk. *)
Inductive event :=
| browse_clicked (filepath : string)
| model_activated (i : nat)
| transcribe_clicked
| thread_scheduled (i : nat) (env : Env)
| signal_delivered (i : nat)
| disk_changed (fs : filesystem).

(** A disabled widget emits no signal, so the slot connected to it does
    not run. *)
Definition step (s : System) (ev : event) : System :=
  match ev with
  | browse_clicked filepath =>
      if browse_btn_enabled (window s)
      then {| window := select_audio_file filepath (window s);
              files := files s; threads := threads s |}
      else s
  | model_activated i =>
      if combo_enabled (model_combo (window s))
         && bool_decide (i < length (items (model_combo (window s))))%nat
      then {| window :=
                set_model_combo
                  (combo_setCurrentIndex (Z.of_nat i) (model_combo (window s)))
                  (window s);
              files := files s; threads := threads s |}
      else s
  | transcribe_clicked =>
      if transcribe_btn_enabled (window s)
      then
        let '(w', spawned) := start_transcription (files s) (window s) in
        {| window := w'; files := files s;
           threads := threads s ++ match spawned with
                                   | Some w => [Spawned w]
                                   | None => []
                                   end |}
      else s
  | thread_scheduled i env =>
      match threads s !! i with
      | Some (Spawned w) =>
          {| window := window s;
             files := snd (run_thread env w (files s));
             threads := <[i := Reporting (fst (run_thread env w (files s)))]> (threads s) |}
      | _ => s
      end
  | signal_delivered i =>
      match threads s !! i with
      | Some (Reporting (sig :: queue)) =>
          {| window := deliver sig (window s); files := files s;
             threads := match queue with
                        | [] => delete i (threads s)
                        | _ => <[i := Reporting queue]> (threads s)
                        end |}
      | Some (Reporting []) =>
          {| window := window s; files := files s;
             threads := delete i (threads s) |}
      | _ => s
      end
  | disk_changed fs =>
      {| window := window s; files := fs; threads := threads s |}
  end.

(** The program after [TranscriberApp()] and [window.show()]. *)
Definition boot (fs : filesystem) : System :=
  {| window := init_ui; files := fs; threads := [] |}.

Definition run_events (s : System) (evs : list event) : System :=
  foldl step s evs.

Definition reachable (s : System) : Prop :=
  ∃ fs evs, s = run_events (boot fs) evs.

(** All four input controls at once. *)
Definition controls_enabled (self : TranscriberApp) : list bool :=
  [browse_btn_enabled self; path_input_enabled self;
   combo_enabled (model_combo self); transcribe_btn_enabled self].

(** ** Environments and disks used in the examples *)

Definition working_env : Env :=
  {| load_model := λ _, Returns {| device := "cpu" |};
     transcribe := λ _ _, Returns {[ "text" := " hello world" ]};
     os_open_w := λ _, None;
     os_write := λ _ _, None;
     elapsed_time_2f := "1.50" |}.

(** The engine works, the output file may not be opened. *)
Definition read_only_env : Env :=
  {| load_model := λ _, Returns {| device := "cpu" |};
     transcribe := λ _ _, Returns {[ "text" := " hello world" ]};
     os_open_w := λ name, Some (Exception ("[Errno 13] Permission denied: '" +:+ name +:+ "'"));
     os_write := λ _ _, None;
     elapsed_time_2f := "1.50" |}.

(** The model cannot be loaded. *)
Definition no_model_env : Env :=
  {| load_model := λ _, Raises (Exception "disk full");
     transcribe := λ _ _, Returns ∅;
     os_open_w := λ _, None;
     os_write := λ _ _, None;
     elapsed_time_2f := "0.00" |}.

(** Inference fails. *)
Definition failing_inference_env : Env :=
  {| load_model := λ _, Returns {| device := "cpu" |};
     transcribe := λ _ _, Raises (Exception "disk full");
     os_open_w := λ _, None;
     os_write := λ _ _, None;
     elapsed_time_2f := "0.00" |}.

Definition sample_disk : filesystem := {[ "sample.wav" := RegularFile "RIFF" ]}.

Definition sample_worker : WhisperWorker :=
  {| audio_path := "sample.wav"; model_name := "balanced" |}.

(** ** The paths through [run]

    One constructor per way out of [run]: the signals emitted and the disk
    left behind.  [run_thread_outcome] below shows that every run takes one
    of them. *)
Inductive run_outcome (env : Env) (self : WhisperWorker) (fs : filesystem)
  : list signal → filesystem → Prop :=
| audio_missing :
    path_exists fs (audio_path self) = false →
    run_outcome env self fs
      [transcription_error ("Audio file not found at '" +:+ audio_path self +:+ "'.")]
      fs
| load_raises e :
    path_exists fs (audio_path self) = true →
    load_model env (model_name self) = Raises e →
    run_outcome env self fs
      [started_transcription ("Loading Whisper model: " +:+ model_name self +:+ "...");
       transcription_error (error_text e)]
      fs
| after_load model e fs' :
    path_exists fs (audio_path self) = true →
    load_model env (model_name self) = Returns model →
    after_load_raises env self fs model e fs' →
    run_outcome env self fs
      [started_transcription ("Loading Whisper model: " +:+ model_name self +:+ "...");
       progress_update
         ("Model loaded successfully. Running on device: " +:+ device model
          +:+ ". Starting transcription...");
       transcription_error (error_text e)]
      fs'
| completes model result full_transcript :
    path_exists fs (audio_path self) = true →
    load_model env (model_name self) = Returns model →
    transcribe env model (audio_path self) = Returns result →
    result !! "text" = Some full_transcript →
    fs !! output_filename (audio_path self) (model_name self) ≠ Some Directory →
    os_open_w env (output_filename (audio_path self) (model_name self)) = None →
    os_write env (output_filename (audio_path self) (model_name self)) full_transcript = None →
    run_outcome env self fs
      [started_transcription ("Loading Whisper model: " +:+ model_name self +:+ "...");
       progress_update
         ("Model loaded successfully. Running on device: " +:+ device model
          +:+ ". Starting transcription...");
       transcription_complete
         (summary_text env (output_filename (audio_path self) (model_name self))
            full_transcript)]
      (<[output_filename (audio_path self) (model_name self) := RegularFile full_transcript]> fs)

(** The exceptions raised once the model is loaded, and the disk each one
    leaves. *)
with after_load_raises (env : Env) (self : WhisperWorker) (fs : filesystem)
  : Model → exn → filesystem → Prop :=
| transcribe_raises model e :
    transcribe env model (audio_path self) = Raises e →
    after_load_raises env self fs model e fs
| text_missing model result :
    transcribe env model (audio_path self) = Returns result →
    result !! "text" = None →
    after_load_raises env self fs model (Exception "'text'") fs
| output_is_directory model result full_transcript :
    transcribe env model (audio_path self) = Returns result →
    result !! "text" = Some full_transcript →
    fs !! output_filename (audio_path self) (model_name self) = Some Directory →
    after_load_raises env self fs model
      (Exception ("[Errno 21] Is a directory: '"
                  +:+ output_filename (audio_path self) (model_name self) +:+ "'"))
      fs
| open_raises model result full_transcript e :
    transcribe env model (audio_path self) = Returns result →
    result !! "text" = Some full_transcript →
    fs !! output_filename (audio_path self) (model_name self) ≠ Some Directory →
    os_open_w env (output_filename (audio_path self) (model_name self)) = Some e →
    after_load_raises env self fs model e fs
| write_raises model result full_transcript e n :
    transcribe env model (audio_path self) = Returns result →
    result !! "text" = Some full_transcript →
    fs !! output_filename (audio_path self) (model_name self) ≠ Some Directory →
    os_open_w env (output_filename (audio_path self) (model_name self)) = None →
    os_write env (output_filename (audio_path self) (model_name self)) full_transcript
      = Some (e, n) →
    after_load_raises env self fs model e
      (<[output_filename (audio_path self) (model_name self)
         := RegularFile (str.take n full_transcript)]> fs).

(** Case analysis of [x ∈ [a; b; ...]]: the cases that clash on the
    constructor are closed. *)
Ltac among H :=
  repeat match type of H with
         | _ ∈ [] => by apply elem_of_nil in H
         | _ ∈ _ :: _ => apply elem_of_cons in H as [H|H]; [try discriminate H|]
         end.

(** The lifecycle in full: [started], then [progress], then one terminal
    signal, and nothing else. *)
Definition lifecycle_in_full (sigs : list signal) : Prop :=
  ∃ a b t, sigs = [started_transcription a; progress_update b; t]
           ∧ is_terminal t = true.

(** ** What holds of the application between two events *)

(** A queue of signals still to deliver: some that are not terminal, then
    one terminal signal. *)
Definition ends_with_terminal (queue : list signal) : Prop :=
  ∃ earlier t, queue = earlier ++ [t]
               ∧ Forall (λ s, is_terminal s = false) earlier
               ∧ is_terminal t = true.

(** The thread of worker [w], before its run or while its signals are
    being delivered. *)
Definition thread_of (w : WhisperWorker) (t : thread) : Prop :=
  t = Spawned w ∨ ∃ queue, t = Reporting queue ∧ ends_with_terminal queue.

Definition idle (s : System) : Prop :=
  threads s = [] ∧ worker (window s) = None
  ∧ controls_enabled (window s) = [true; true; true; true].

Definition busy (s : System) : Prop :=
  ∃ w t, threads s = [t] ∧ thread_of w t ∧ worker (window s) = Some w
         ∧ model_name w ∈ items (model_combo (window s))
         ∧ controls_enabled (window s) = [false; false; false; false].

Definition consistent (s : System) : Prop :=
  items (model_combo (window s)) = ["base"; "small"; "medium"; "large-v2"]
  ∧ (0 ≤ currentIndex (model_combo (window s)) < 4)%Z
  ∧ (idle s ∨ busy s).

(** ** Further vocabulary for the properties of names and of a whole job *)

(** Every character of [s] is [c] (true of the empty string). *)
Fixpoint only_char (c : ascii) (s : string) : bool :=
  match s with
  | EmptyString => true
  | String a s' => Ascii.eqb a c && only_char c s'
  end.

(** The window after the slots of [sigs] have run, oldest signal first. *)
Definition deliver_all (sigs : list signal) (self : TranscriberApp) : TranscriberApp :=
  foldl (λ a s, deliver s a) self sigs.

(** The four controls share one state, and the start button's text and the
    busy indicator follow it. *)
Definition coherent (self : TranscriberApp) : Prop :=
  ∃ ready : bool,
    controls_enabled self = [ready; ready; ready; ready]
    ∧ progress_bar_visible self = negb ready
    ∧ transcribe_btn_text self
      = (if ready then "Start Transcription" else "Processing...").

(** The engine returns a result without a ["text"] entry. *)
Definition textless_env : Env :=
  {| load_model := λ _, Returns {| device := "cpu" |};
     transcribe := λ _ _, Returns {[ "language" := "en" ]};
     os_open_w := λ _, None;
     os_write := λ _ _, None;
     elapsed_time_2f := "1.50" |}.

(** The disk fills up four bytes into the write. *)
Definition full_disk_env : Env :=
  {| load_model := λ _, Returns {| device := "cpu" |};
     transcribe := λ _ _, Returns {[ "text" := " hello world" ]};
     os_open_w := λ _, None;
     os_write := λ _ _, Some (Exception "[Errno 28] No space left on device", 4%nat);
     elapsed_time_2f := "1.50" |}.

(** A disk that already holds a transcript of the sample. *)
Definition disk_with_transcript : filesystem :=
  {[ "sample.wav" := RegularFile "RIFF";
     "sample_balanced_transcript.txt" := RegularFile "an earlier transcript" ]}.

(** A worker whose model name is a path, chosen so that the output name
    is the audio path itself. *)
Definition self_overwriting_worker : WhisperWorker :=
  {| audio_path := "x_transcript_a/x_transcript.txt"; model_name := "a/x" |}.

(** * Properties *)

(** ** Strings and paths *)

Module str_facts.

(** The two equations of string concatenation. *)
Lemma app_nil t : "" +:+ t = t.
Proof. reflexivity. Qed.

Lemma app_String a s t : String a s +:+ t = String a (s +:+ t).
Proof. reflexivity. Qed.

Lemma rfind_bounds (s : string) (c : ascii) : (-1 ≤ str.rfind s c < str.len s)%Z.
Proof.
  unfold str.len. induction s as [|a s IH]; simpl; [lia|].
  destruct (Z.leb_spec 0 (str.rfind s c)); [lia|].
  destruct (Ascii.eqb a c); lia.
Qed.

Lemma rfind_absent s c : str.contains_char c s = false → str.rfind s c = -1.
Proof.
  induction s as [|a s IH]; simpl; [done|].
  intros [Ha Hs]%orb_false_iff. rewrite (IH Hs), Ha. done.
Qed.

Lemma absent_rfind (s : string) (c : ascii) : (str.rfind s c < 0)%Z → str.contains_char c s = false.
Proof.
  induction s as [|a s IH]; simpl; [done|].
  destruct (Z.leb_spec 0 (str.rfind s c)) as [Hr|Hr].
  - lia.
  - destruct (Ascii.eqb a c); [lia|]. intros _. simpl. by apply IH.
Qed.

Lemma clamp_in_range (s : string) (i : Z) : (0 ≤ i ≤ str.len s)%Z → str.clamp s i = Z.to_nat i.
Proof.
  intros Hi. unfold str.clamp.
  destruct (Z.ltb_spec i 0); [lia|]. f_equal. lia.
Qed.

Lemma take_absent c n s :
  str.contains_char c s = false → str.contains_char c (str.take n s) = false.
Proof.
  revert s. induction n as [|n IH]; intros [|a s]; simpl; try done.
  intros [Ha Hs]%orb_false_iff. rewrite Ha. simpl. by apply IH.
Qed.

Lemma drop_absent c n s :
  str.contains_char c s = false → str.contains_char c (str.drop n s) = false.
Proof.
  revert s. induction n as [|n IH]; intros [|a s]; simpl; try done.
  intros [Ha Hs]%orb_false_iff. by apply IH.
Qed.

Lemma append_absent c s t :
  str.contains_char c (s +:+ t) = str.contains_char c s || str.contains_char c t.
Proof.
  induction s as [|a s IH]; [done|].
  rewrite app_String. simpl. by rewrite IH, orb_assoc.
Qed.

(** What follows the last occurrence of [c] holds no [c]. *)
Lemma after_last_absent s c :
  str.contains_char c (str.drop (Z.to_nat (str.rfind s c + 1)) s) = false.
Proof.
  induction s as [|a s IH]; simpl; [done|].
  pose proof (rfind_bounds s c) as Hb.
  destruct (Z.leb_spec 0 (str.rfind s c)) as [Hr|Hr].
  - replace (Z.to_nat (str.rfind s c + 1 + 1)) with (S (Z.to_nat (str.rfind s c + 1))) by lia.
    simpl. exact IH.
  - destruct (Ascii.eqb a c) eqn:Ha; simpl.
    + apply absent_rfind. lia.
    + rewrite Ha. simpl. apply absent_rfind. lia.
Qed.

Lemma rfind_join d c n :
  str.contains_char c n = false →
  str.rfind (d +:+ String c n) c = Z.of_nat (String.length d).
Proof.
  intros Hn. induction d as [|a d IH].
  - rewrite app_nil. simpl. rewrite (rfind_absent n c Hn). simpl.
    by rewrite Ascii.eqb_refl.
  - rewrite app_String. simpl. rewrite IH.
    destruct (Z.leb_spec 0 (Z.of_nat (String.length d))); lia.
Qed.

Lemma length_append s t :
  String.length (s +:+ t) = (String.length s + String.length t)%nat.
Proof.
  induction s as [|a s IH]; [done|]. rewrite app_String. simpl. by rewrite IH.
Qed.

Lemma app_assoc s t u : (s +:+ t) +:+ u = s +:+ t +:+ u.
Proof.
  induction s as [|a s IH]; [done|]. rewrite !app_String. f_equal. exact IH.
Qed.

Lemma append_cons d c n : (d +:+ String c "") +:+ n = d +:+ String c n.
Proof.
  induction d as [|a d IH]; [done|]. rewrite !app_String. f_equal. exact IH.
Qed.

Lemma drop_append d t : str.drop (String.length d) (d +:+ t) = t.
Proof.
  induction d as [|a d IH]; [by destruct t|]. rewrite app_String. exact IH.
Qed.

End str_facts.

Module os_path_facts.
Import str_facts.

(** [basename] returns a name without separator. *)
Lemma basename_no_sep p :
  str.contains_char os_path.sep (os_path.basename p) = false.
Proof.
  unfold os_path.basename, str.slice_from.
  pose proof (rfind_bounds p os_path.sep).
  rewrite clamp_in_range by lia. apply after_last_absent.
Qed.

(** [basename] drops the directory part. *)
Lemma basename_join d n :
  str.contains_char os_path.sep n = false →
  os_path.basename (d +:+ String os_path.sep n) = n.
Proof.
  intros Hn. unfold os_path.basename, str.slice_from.
  rewrite (rfind_join d os_path.sep n Hn).
  rewrite clamp_in_range.
  - replace (Z.to_nat (Z.of_nat (String.length d) + 1))
      with (String.length (d +:+ String os_path.sep "")).
    + replace (d +:+ String os_path.sep n)
        with ((d +:+ String os_path.sep "") +:+ n).
      * apply drop_append.
      * apply append_cons.
    + rewrite length_append. simpl. lia.
  - unfold str.len. rewrite length_append. simpl. lia.
Qed.

Lemma skip_leading_dots_fst n p i j :
  fst (os_path.skip_leading_dots n p i j) = p
  ∨ fst (os_path.skip_leading_dots n p i j) = str.slice_to p j.
Proof.
  revert i. induction n as [|n IH]; intros i; simpl; [by left|].
  destruct (negb _); [by right|]. apply IH.
Qed.

(** The root returned by [splitext] is the path or a prefix of it. *)
Lemma splitext_root p :
  ∃ k, fst (os_path.splitext p) = str.take k p.
Proof.
  assert (Hfull : p = str.take (String.length p) p).
  { induction p as [|a p IH]; simpl; [done|]. by rewrite <- IH. }
  unfold os_path.splitext, os_path._splitext.
  destruct (_ <? _)%Z.
  - destruct (skip_leading_dots_fst
                (Z.to_nat (str.rfind p os_path.extsep - (str.rfind p os_path.sep + 1)))
                p (str.rfind p os_path.sep + 1) (str.rfind p os_path.extsep))
      as [-> | ->].
    + by exists (String.length p).
    + by eexists.
  - by exists (String.length p).
Qed.

Lemma base_name_no_sep p :
  str.contains_char os_path.sep (base_name p) = false.
Proof.
  unfold base_name.
  destruct (splitext_root (os_path.basename p)) as [k ->].
  apply take_absent, basename_no_sep.
Qed.

Lemma output_filename_nonempty p m : output_filename p m ≠ "".
Proof.
  unfold output_filename. destruct (base_name p); [rewrite app_nil|]; done.
Qed.

(** With a model name that holds no separator the output name holds none:
    the file is an entry of the working directory itself. *)
Lemma output_filename_no_sep p m :
  str.contains_char os_path.sep m = false →
  str.contains_char os_path.sep (output_filename p m) = false.
Proof.
  intros Hm. unfold output_filename.
  rewrite !append_absent, base_name_no_sep, Hm. done.
Qed.

End os_path_facts.

(** ** The worker *)

Section worker.
Context (env : Env) (self : WhisperWorker) (fs : filesystem).

(** Every run takes one of the paths of [run_outcome]. *)
Lemma run_thread_outcome :
  run_outcome env self fs (fst (run_thread env self fs)) (snd (run_thread env self fs)).
Proof.
  unfold run_thread, run. simpl.
  destruct (path_exists fs (audio_path self)) eqn:Hexists; simpl.
  2:{ by apply audio_missing. }
  unfold mbind, Py_bind, bind, try_except, call, emit, open_w, write. simpl.
  destruct (load_model env (model_name self)) as [model|e] eqn:Hload; simpl.
  2:{ by apply load_raises. }
  destruct (transcribe env model (audio_path self)) as [result|e] eqn:Htr; simpl.
  2:{ eapply after_load; [done..|]. by apply transcribe_raises. }
  unfold getitem.
  destruct (result !! "text") as [text|] eqn:Htext; simpl.
  2:{ eapply after_load; [done..|]. by eapply text_missing. }
  set (out := output_filename (audio_path self) (model_name self)).
  destruct (fs !! out) as [[d|]|] eqn:Hout; simpl.
  2:{ eapply after_load; [done..|]. by eapply output_is_directory. }
  all: destruct (os_open_w env out) as [e|] eqn:Hopen; simpl;
    [ eapply after_load; [done..|]; eapply open_raises; [done..| |done];
      fold out; by rewrite Hout | ].
  all: destruct (os_write env out text) as [[e n]|] eqn:Hwrite; simpl.
  all: unfold file_data;
    rewrite lookup_insert_eq, insert_insert_eq, str_facts.app_nil.
  all: first
    [ eapply completes; [done..| |done|done]; fold out; by rewrite Hout
    | eapply after_load; [done..|]; eapply write_raises; [done..| |done|done];
      fold out; by rewrite Hout ].
Qed.

(** A run that emits [transcription_complete] went through every step of
    the [try] block without an exception. *)
Lemma complete_inv summary :
  transcription_complete summary ∈ fst (run_thread env self fs) →
  ∃ model result full_transcript,
    path_exists fs (audio_path self) = true
    ∧ load_model env (model_name self) = Returns model
    ∧ transcribe env model (audio_path self) = Returns result
    ∧ result !! "text" = Some full_transcript
    ∧ summary = summary_text env (output_filename (audio_path self) (model_name self))
                  full_transcript
    ∧ snd (run_thread env self fs)
      = <[output_filename (audio_path self) (model_name self)
          := RegularFile full_transcript]> fs.
Proof.
  pose proof run_thread_outcome as Hrun.
  destruct (run_thread env self fs) as [sigs fs']. simpl in *.
  intros Hin. destruct Hrun; among Hin.
  exists model, result, full_transcript. by injection Hin as ->.
Qed.

(** The converse: when nothing raises, the run completes. *)
Lemma run_completes model result full_transcript :
  path_exists fs (audio_path self) = true →
  load_model env (model_name self) = Returns model →
  transcribe env model (audio_path self) = Returns result →
  result !! "text" = Some full_transcript →
  fs !! output_filename (audio_path self) (model_name self) ≠ Some Directory →
  os_open_w env (output_filename (audio_path self) (model_name self)) = None →
  os_write env (output_filename (audio_path self) (model_name self)) full_transcript = None →
  run_thread env self fs
  = ([started_transcription ("Loading Whisper model: " +:+ model_name self +:+ "...");
      progress_update
        ("Model loaded successfully. Running on device: " +:+ device model
         +:+ ". Starting transcription...");
      transcription_complete
        (summary_text env (output_filename (audio_path self) (model_name self))
           full_transcript)],
     <[output_filename (audio_path self) (model_name self)
       := RegularFile full_transcript]> fs).
Proof.
  intros Hexists Hload Htr Htext Hdir Hopen Hwrite.
  unfold run_thread, run. simpl. rewrite Hexists. simpl.
  unfold mbind, Py_bind, bind, try_except, call, emit, open_w, write. simpl.
  rewrite Hload. simpl. rewrite Htr. simpl.
  unfold getitem. rewrite Htext. simpl.
  set (out := output_filename (audio_path self) (model_name self)) in *.
  destruct (fs !! out) as [[d|]|] eqn:Hout; [|done|].
  all: rewrite Hopen; simpl; rewrite Hwrite; simpl.
  all: unfold file_data;
    by rewrite lookup_insert_eq, insert_insert_eq, str_facts.app_nil.
Qed.

End worker.

(** C1: a successful run (one that emits [transcription_complete]) with
    input path [p] and model name [m] writes exactly one file, and the name
    handed to [open] is [<basename of p without extension>_<m>_transcript.txt]:
    a relative name, so the file lands under the working directory, and with a
    model name that holds no separator it is an entry of that directory
    itself.  The summary reports that name.  For [sample.wav] and [balanced]
    the name is [sample_balanced_transcript.txt]. *)
Theorem successful_run_output_name (env : Env) (self : WhisperWorker)
    (fs : filesystem) (summary : string) :
  transcription_complete summary ∈ fst (run_thread env self fs) →
  let name := output_filename (audio_path self) (model_name self) in
  name = fst (os_path.splitext (os_path.basename (audio_path self)))
         +:+ "_" +:+ model_name self +:+ "_transcript.txt"
  ∧ (∃ text, snd (run_thread env self fs) = <[name := RegularFile text]> fs)
  ∧ str.contains summary ("Result saved to: " +:+ name)
  ∧ (str.contains_char os_path.sep (model_name self) = false →
     str.contains_char os_path.sep name = false)
  ∧ output_filename "sample.wav" "balanced" = "sample_balanced_transcript.txt".
Proof.
  intros Hdone name.
  destruct (complete_inv env self fs summary Hdone)
    as (model & result & text & _ & _ & _ & _ & -> & Hdisk).
  split; [done|]. split; [by exists text|]. split; [|split].
  - exists ("Transcription complete in " +:+ elapsed_time_2f env +:+ " seconds." +:+ LF),
      (LF +:+ LF +:+ "Full Transcript:" +:+ LF +:+ text).
    unfold summary_text. fold name. by rewrite !str_facts.app_assoc.
  - apply os_path_facts.output_filename_no_sep.
  - reflexivity.
Qed.

Lemma successful_run_output_name_witness :
  ∃ text,
    snd (run_thread working_env sample_worker sample_disk)
    = <["sample_balanced_transcript.txt" := RegularFile text]> sample_disk.
Proof.
  refine (proj1 (proj2 (successful_run_output_name working_env sample_worker
                          sample_disk
                          (summary_text working_env "sample_balanced_transcript.txt"
                             " hello world") _))).
  vm_compute. do 2 apply list_elem_of_further. apply list_elem_of_here.
Defined.

(** C2, as the code has it: for a valid input whose transcription succeeds
    and whose output file is then opened and written without an exception
    (the file's name is not a directory, the operating system grants the
    [open] and accepts the [write]), after the run the output file exists
    and its contents are exactly the transcript text returned by the
    engine, written as UTF-8 (a [str] is represented here by its UTF-8
    bytes, and those are the file's data), with nothing prepended or
    appended. *)
Theorem transcript_written (env : Env) (self : WhisperWorker) (fs : filesystem)
    (model : Model) (result : gmap string string) (full_transcript : string) :
  path_exists fs (audio_path self) = true →
  load_model env (model_name self) = Returns model →
  transcribe env model (audio_path self) = Returns result →
  result !! "text" = Some full_transcript →
  fs !! output_filename (audio_path self) (model_name self) ≠ Some Directory →
  os_open_w env (output_filename (audio_path self) (model_name self)) = None →
  os_write env (output_filename (audio_path self) (model_name self)) full_transcript = None →
  let name := output_filename (audio_path self) (model_name self) in
  let fs' := snd (run_thread env self fs) in
  path_exists fs' name = true
  ∧ fs' !! name = Some (RegularFile full_transcript).
Proof.
  intros Hexists Hload Htr Htext Hdir Hopen Hwrite name fs'.
  unfold fs'.
  rewrite (run_completes env self fs model result full_transcript) by done.
  simpl. fold name. split.
  - unfold path_exists.
    pose proof (os_path_facts.output_filename_nonempty (audio_path self) (model_name self)).
    fold name in H. destruct name; [done|].
    apply bool_decide_eq_true. rewrite lookup_insert_eq. by eexists.
  - by rewrite lookup_insert_eq.
Qed.

Lemma transcript_written_witness :
  path_exists (snd (run_thread working_env sample_worker sample_disk))
    "sample_balanced_transcript.txt" = true
  ∧ snd (run_thread working_env sample_worker sample_disk)
      !! "sample_balanced_transcript.txt"
    = Some (RegularFile " hello world").
Proof.
  refine (transcript_written working_env sample_worker sample_disk
            {| device := "cpu" |} {[ "text" := " hello world" ]} " hello world"
            eq_refl eq_refl eq_refl eq_refl _ eq_refl eq_refl).
  by vm_compute.
Defined.

(** C2 as the specification words it, with the engine succeeding as its only
    premise, fails: here the input is valid and the transcription returns
    its text, but the operating system refuses to open the output file, so
    the run reports an error and no output file exists afterwards. *)
Lemma transcript_not_written_when_open_refused :
  path_exists sample_disk (audio_path sample_worker) = true
  ∧ load_model read_only_env (model_name sample_worker) = Returns {| device := "cpu" |}
  ∧ transcribe read_only_env {| device := "cpu" |} (audio_path sample_worker)
    = Returns {[ "text" := " hello world" ]}
  ∧ path_exists (snd (run_thread read_only_env sample_worker sample_disk))
      (output_filename (audio_path sample_worker) (model_name sample_worker))
    = false
  ∧ fst (run_thread read_only_env sample_worker sample_disk)
    = [started_transcription "Loading Whisper model: balanced...";
       progress_update
         "Model loaded successfully. Running on device: cpu. Starting transcription...";
       transcription_error
         "An unexpected error occurred: [Errno 13] Permission denied: 'sample_balanced_transcript.txt'. Check FFmpeg installation and file permissions."].
Proof. repeat split; by vm_compute. Qed.

(** C4: when the model load or the inference raises an exception [e], the
    run's last signal is [transcription_error] with a message that contains
    [str(e)]; no [transcription_complete] is emitted, nothing before the
    error is terminal, and the disk is left as it was: the write of the
    output file is skipped. *)
Theorem engine_exception_reported (env : Env) (self : WhisperWorker)
    (fs : filesystem) (e : exn) :
  path_exists fs (audio_path self) = true →
  (load_model env (model_name self) = Raises e
   ∨ ∃ model, load_model env (model_name self) = Returns model
              ∧ transcribe env model (audio_path self) = Raises e) →
  (∃ earlier message,
     fst (run_thread env self fs) = earlier ++ [transcription_error message]
     ∧ Forall (λ s, is_terminal s = false) earlier
     ∧ str.contains message (exc_str e))
  ∧ snd (run_thread env self fs) = fs.
Proof.
  intros Hexists Hraise.
  assert (Hmsg : str.contains (error_text e) (exc_str e)).
  { by exists "An unexpected error occurred: ",
      ". Check FFmpeg installation and file permissions.". }
  unfold run_thread, run. simpl. rewrite Hexists. simpl.
  unfold mbind, Py_bind, bind, try_except, call, emit. simpl.
  destruct Hraise as [Hload | (model & Hload & Htr)]; rewrite Hload; simpl.
  - split; [|done].
    exists [started_transcription ("Loading Whisper model: " +:+ model_name self +:+ "...")],
      (error_text e).
    repeat split; [|done]. by repeat constructor.
  - rewrite Htr. simpl. split; [|done].
    exists [started_transcription ("Loading Whisper model: " +:+ model_name self +:+ "...");
            progress_update
              ("Model loaded successfully. Running on device: " +:+ device model
               +:+ ". Starting transcription...")],
      (error_text e).
    repeat split; [|done]. by repeat constructor.
Qed.

Lemma engine_exception_reported_witness :
  (∃ earlier message,
     fst (run_thread failing_inference_env sample_worker sample_disk)
     = earlier ++ [transcription_error message]
     ∧ Forall (λ s, is_terminal s = false) earlier
     ∧ str.contains message "disk full")
  ∧ snd (run_thread failing_inference_env sample_worker sample_disk) = sample_disk.
Proof.
  apply (engine_exception_reported failing_inference_env sample_worker sample_disk
           (Exception "disk full")).
  - by vm_compute.
  - right. exists {| device := "cpu" |}. split; reflexivity.
Defined.

(** C6 as the specification words it (every run emits [started], then
    [progress], then its terminal signal) fails: when the model cannot be
    loaded the run emits [started] and then the error, and no [progress]. *)
Lemma no_progress_when_load_fails :
  fst (run_thread no_model_env sample_worker sample_disk)
  = [started_transcription "Loading Whisper model: balanced...";
     transcription_error
       "An unexpected error occurred: disk full. Check FFmpeg installation and file permissions."]
  ∧ ¬ lifecycle_in_full (fst (run_thread no_model_env sample_worker sample_disk)).
Proof.
  split; [by vm_compute|].
  intros (a & b & t & Heq & _). vm_compute in Heq. discriminate Heq.
Qed.

(** C6, as the code has it: every run in which each engine call returns
    or raises an [Exception] emits exactly one terminal signal, and it is
    the last signal of the run.  A run whose audio file is missing emits
    the error alone; a run whose model fails to load emits [started] and
    then the error, without [progress]; every other run emits [started],
    then [progress], then its terminal signal.  [transcription_complete]
    is always preceded by both. *)
Theorem lifecycle_order (env : Env) (self : WhisperWorker) (fs : filesystem) :
  let sigs := fst (run_thread env self fs) in
  let started :=
    started_transcription ("Loading Whisper model: " +:+ model_name self +:+ "...") in
  (∃ earlier t, sigs = earlier ++ [t]
                ∧ Forall (λ s, is_terminal s = false) earlier
                ∧ is_terminal t = true)
  ∧ (path_exists fs (audio_path self) = false →
     sigs = [transcription_error
               ("Audio file not found at '" +:+ audio_path self +:+ "'.")])
  ∧ (∀ e, path_exists fs (audio_path self) = true →
          load_model env (model_name self) = Raises e →
          sigs = [started; transcription_error (error_text e)])
  ∧ (∀ model, path_exists fs (audio_path self) = true →
              load_model env (model_name self) = Returns model →
              ∃ t, sigs = [started;
                           progress_update
                             ("Model loaded successfully. Running on device: "
                              +:+ device model +:+ ". Starting transcription...");
                           t]
                   ∧ is_terminal t = true)
  ∧ (∀ summary, transcription_complete summary ∈ sigs →
                ∃ b, sigs = [started; progress_update b;
                             transcription_complete summary]).
Proof.
  pose proof (run_thread_outcome env self fs) as Hrun.
  destruct (run_thread env self fs) as [sigs fs']. simpl in *.
  destruct Hrun as [Hmissing | e Hexists Hload | model e fs' Hexists Hload _
                   | model result text Hexists Hload].
  - split; [|repeat split].
    + by exists [], (transcription_error
                      ("Audio file not found at '" +:+ audio_path self +:+ "'.")).
    + congruence.
    + congruence.
    + intros summary Hin. among Hin.
  - split; [|repeat split].
    + eexists [_], _. split; [done|]. by repeat constructor.
    + congruence.
    + intros e' _ He'. congruence.
    + intros model _ Hmodel. congruence.
    + intros summary Hin. among Hin.
  - split; [|repeat split].
    + eexists [_; _], _. split; [done|]. by repeat constructor.
    + congruence.
    + intros e' _ He'. congruence.
    + intros model' _ Hmodel. assert (model' = model) as -> by congruence.
      by eexists.
    + intros summary Hin. among Hin.
  - split; [|repeat split].
    + eexists [_; _], _. split; [done|]. by repeat constructor.
    + congruence.
    + intros e' _ He'. congruence.
    + intros model' _ Hmodel. assert (model' = model) as -> by congruence.
      by eexists.
    + intros summary Hin. among Hin. injection Hin as ->. by eexists.
Qed.

Lemma lifecycle_order_witness :
  fst (run_thread no_model_env sample_worker sample_disk)
  = [started_transcription "Loading Whisper model: balanced...";
     transcription_error
       "An unexpected error occurred: disk full. Check FFmpeg installation and file permissions."]
  ∧ fst (run_thread working_env sample_worker ∅)
    = [transcription_error "Audio file not found at 'sample.wav'."].
Proof.
  split.
  - exact (proj1 (proj2 (proj2 (lifecycle_order no_model_env sample_worker sample_disk)))
             (Exception "disk full") eq_refl eq_refl).
  - exact (proj1 (proj2 (lifecycle_order working_env sample_worker ∅)) eq_refl).
Defined.

(** C9: the output name is a function of the input path's base name, that
    is its last component with the extension stripped, and of the model
    name.  Two paths with the same last component, or only with the same
    base name, give the same output name under the same model, so two
    successful runs on them write the same path. *)
Theorem output_name_ignores_directory (p1 p2 m : string) :
  os_path.basename p1 = os_path.basename p2 ∨ base_name p1 = base_name p2 →
  output_filename p1 m = output_filename p2 m
  ∧ ∀ env1 env2 fs1 fs2 s1 s2,
      transcription_complete s1
        ∈ fst (run_thread env1 {| audio_path := p1; model_name := m |} fs1) →
      transcription_complete s2
        ∈ fst (run_thread env2 {| audio_path := p2; model_name := m |} fs2) →
      ∃ text1 text2,
        snd (run_thread env1 {| audio_path := p1; model_name := m |} fs1)
        = <[output_filename p1 m := RegularFile text1]> fs1
        ∧ snd (run_thread env2 {| audio_path := p2; model_name := m |} fs2)
          = <[output_filename p1 m := RegularFile text2]> fs2.
Proof.
  intros Hsame.
  assert (Hbase : base_name p1 = base_name p2).
  { destruct Hsame as [Hb|Hb]; [|done]. unfold base_name. by rewrite Hb. }
  assert (Hname : output_filename p1 m = output_filename p2 m).
  { unfold output_filename. by rewrite Hbase. }
  split; [done|].
  intros env1 env2 fs1 fs2 s1 s2 H1 H2.
  destruct (complete_inv _ _ _ _ H1) as (_ & _ & text1 & _ & _ & _ & _ & _ & Hd1).
  destruct (complete_inv _ _ _ _ H2) as (_ & _ & text2 & _ & _ & _ & _ & _ & Hd2).
  exists text1, text2. simpl in *. split; [exact Hd1|]. rewrite Hname. exact Hd2.
Qed.

Lemma output_name_ignores_directory_witness :
  output_filename "/home/ann/sample.wav" "medium"
  = output_filename "talks/2024/sample.mp3" "medium".
Proof.
  apply (output_name_ignores_directory "/home/ann/sample.wav" "talks/2024/sample.mp3"
           "medium").
  right. reflexivity.
Defined.

(** The directory part of a path never reaches the output name. *)
Lemma output_filename_join (d n m : string) :
  str.contains_char os_path.sep n = false →
  output_filename (d +:+ String os_path.sep n) m = output_filename n m.
Proof.
  intros Hn. unfold output_filename, base_name.
  rewrite os_path_facts.basename_join by done.
  replace (os_path.basename n) with n; [done|].
  unfold os_path.basename, str.slice_from.
  rewrite (str_facts.rfind_absent n os_path.sep Hn).
  rewrite str_facts.clamp_in_range; [done|]. unfold str.len. lia.
Qed.

(** ** The main window *)

(** C3: when the path field is empty or names nothing on the disk, the
    start operation only shows the "Input Error" warning box: no worker is
    created or started (no thread joins the system), the [worker] attribute
    and the enabled state of every control are what they were. *)
Theorem invalid_path_rejected (s : System) :
  path_input_text (window s) = ""
  ∨ path_exists (files s) (path_input_text (window s)) = false →
  start_transcription (files s) (window s)
  = (show_message_box
       (QMessageBox_warning "Input Error"
          "Please select a valid audio file before starting transcription.")
       (window s),
     None)
  ∧ worker (fst (start_transcription (files s) (window s))) = worker (window s)
  ∧ controls_enabled (fst (start_transcription (files s) (window s)))
    = controls_enabled (window s)
  ∧ threads (step s transcribe_clicked) = threads s
  ∧ files (step s transcribe_clicked) = files s.
Proof.
  intros Hbad.
  assert (Hstart : start_transcription (files s) (window s)
                   = (show_message_box
                        (QMessageBox_warning "Input Error"
                           "Please select a valid audio file before starting transcription.")
                        (window s), None)).
  { unfold start_transcription. destruct Hbad as [-> | ->]; [done|].
    by rewrite orb_true_r. }
  split; [done|]. simpl. rewrite Hstart. simpl.
  repeat split.
  - destruct (transcribe_btn_enabled (window s)); [simpl; apply app_nil_r | done].
  - by destruct (transcribe_btn_enabled (window s)).
Qed.

Lemma invalid_path_rejected_witness :
  threads (step (boot sample_disk) transcribe_clicked) = []
  ∧ message_boxes (window (step (boot sample_disk) transcribe_clicked))
    = [QMessageBox_warning "Input Error"
         "Please select a valid audio file before starting transcription."].
Proof.
  pose proof (invalid_path_rejected (boot sample_disk) (or_introl eq_refl))
    as (_ & _ & _ & Hthreads & _).
  split; [exact Hthreads | reflexivity].
Defined.

(** C7: both terminal slots, [handle_complete] and [handle_error], leave
    the browse button, the path field, the model selector and the start
    button enabled and the [worker] attribute [None]; the start button
    reads "Start Transcription" again and the busy indicator is hidden.
    [handle_error] also shows the critical box with the message. *)
Theorem terminal_slots_restore (self : TranscriberApp) (text : string) :
  (controls_enabled (handle_complete text self) = [true; true; true; true]
   ∧ worker (handle_complete text self) = None
   ∧ transcribe_btn_text (handle_complete text self) = "Start Transcription"
   ∧ progress_bar_visible (handle_complete text self) = false
   ∧ output_text (handle_complete text self) = text)
  ∧ (controls_enabled (handle_error text self) = [true; true; true; true]
     ∧ worker (handle_error text self) = None
     ∧ transcribe_btn_text (handle_error text self) = "Start Transcription"
     ∧ progress_bar_visible (handle_error text self) = false
     ∧ status_label_text (handle_error text self) = "ERROR: " +:+ text
     ∧ message_boxes (handle_error text self)
       = message_boxes self ++ [QMessageBox_critical "Transcription Error" text])
  ∧ deliver (transcription_complete text) self = handle_complete text self
  ∧ deliver (transcription_error text) self = handle_error text self.
Proof. by destruct self. Qed.

(** C10: the slots of the two signals that are not terminal,
    [handle_started] and [handle_progress], assign the status label and
    nothing else.  So from a start that spawned a worker, and through any
    number of such signals, the window stays busy: every input control
    disabled, the [worker] attribute set, the output log as the start left
    it (empty), the busy indicator shown. *)
Theorem nonterminal_slots_frame (fs : filesystem) (self self' : TranscriberApp)
    (w : WhisperWorker) (sigs : list signal) :
  start_transcription fs self = (self', Some w) →
  Forall (λ s, is_terminal s = false) sigs →
  (∀ message a,
     handle_started message a = set_status_label_text message a
     ∧ handle_progress message a = set_status_label_text message a
     ∧ controls_enabled (set_status_label_text message a) = controls_enabled a
     ∧ worker (set_status_label_text message a) = worker a
     ∧ output_text (set_status_label_text message a) = output_text a
     ∧ set_status_label_text "" (set_status_label_text message a)
       = set_status_label_text "" a)
  ∧ controls_enabled (foldl (λ a s, deliver s a) self' sigs)
    = [false; false; false; false]
  ∧ worker (foldl (λ a s, deliver s a) self' sigs) = Some w
  ∧ output_text (foldl (λ a s, deliver s a) self' sigs) = ""
  ∧ progress_bar_visible (foldl (λ a s, deliver s a) self' sigs) = true
  ∧ transcribe_btn_text (foldl (λ a s, deliver s a) self' sigs) = "Processing...".
Proof.
  intros Hstart Hsigs. split; [by intros message []|].
  assert (Hbusy : controls_enabled self' = [false; false; false; false]
                  ∧ worker self' = Some w ∧ output_text self' = ""
                  ∧ progress_bar_visible self' = true
                  ∧ transcribe_btn_text self' = "Processing...").
  { unfold start_transcription in Hstart.
    destruct (_ || _); [done|]. by injection Hstart as <- <-. }
  clear Hstart. revert self' Hbusy.
  induction Hsigs as [|sig sigs Hsig _ IH]; intros self' Hbusy; [done|].
  simpl. apply IH.
  destruct sig; try done; by destruct self'.
Qed.

Lemma nonterminal_slots_frame_witness :
  controls_enabled
    (foldl (λ a s, deliver s a)
       (fst (start_transcription sample_disk
               (select_audio_file "sample.wav" init_ui)))
       [started_transcription "Loading Whisper model: medium...";
        progress_update "Model loaded successfully."])
  = [false; false; false; false].
Proof.
  refine (proj1 (proj2 (nonterminal_slots_frame sample_disk
                          (select_audio_file "sample.wav" init_ui) _
                          {| audio_path := "sample.wav"; model_name := "medium" |}
                          _ _ _))).
  - by vm_compute.
  - by repeat constructor.
Defined.

(** ** The application between two events *)

Lemma run_thread_ends_with_terminal env w fs :
  ends_with_terminal (fst (run_thread env w fs)).
Proof.
  pose proof (run_thread_outcome env w fs) as Hrun.
  destruct (run_thread env w fs) as [sigs fs']. simpl in *.
  destruct Hrun.
  - by exists [], (transcription_error ("Audio file not found at '" +:+ audio_path w +:+ "'.")).
  - eexists [_], _. split; [done|]. by repeat constructor.
  - eexists [_; _], _. split; [done|]. by repeat constructor.
  - eexists [_; _], _. split; [done|]. by repeat constructor.
Qed.

Lemma currentText_in_items (c : QComboBox) :
  items c = ["base"; "small"; "medium"; "large-v2"] →
  (0 ≤ currentIndex c < 4)%Z →
  currentText c ∈ items c.
Proof.
  intros Hitems Hindex. unfold currentText. rewrite Hitems.
  destruct (Z.ltb_spec (currentIndex c) 0); [lia|].
  assert (Hcases : Z.to_nat (currentIndex c) = 0%nat ∨ Z.to_nat (currentIndex c) = 1%nat
                   ∨ Z.to_nat (currentIndex c) = 2%nat ∨ Z.to_nat (currentIndex c) = 3%nat)
    by lia.
  destruct Hcases as [-> | [-> | [-> | ->]]]; simpl; repeat constructor.
Qed.

Lemma boot_consistent fs : consistent (boot fs).
Proof.
  split; [done|]. split; [by vm_compute|]. left. by repeat split.
Qed.

Lemma step_consistent s ev : consistent s → consistent (step s ev).
Proof.
  intros (Hitems & Hindex & Hstate).
  destruct ev as [filepath | i | | i env | i | fs]; simpl.
  - (* browse_clicked *)
    destruct (browse_btn_enabled (window s)) eqn:Hbrowse; [|done].
    assert (Hsame : ∀ a, model_combo (select_audio_file filepath a) = model_combo a
                         ∧ worker (select_audio_file filepath a) = worker a
                         ∧ controls_enabled (select_audio_file filepath a)
                           = controls_enabled a).
    { intros a. unfold select_audio_file. by destruct (negb _), a. }
    destruct (Hsame (window s)) as (Hcombo & Hworker & Hcontrols).
    unfold consistent, idle, busy. simpl. rewrite Hcombo, Hworker, Hcontrols.
    done.
  - (* model_activated *)
    destruct (combo_enabled (model_combo (window s))) eqn:Hcombo; [|done]. simpl.
    case_bool_decide as Hi; [|done].
    rewrite Hitems in Hi. simpl in Hi.
    destruct Hstate as [(Hthreads & Hworker & Hcontrols) | (w & t & _ & _ & _ & _ & Hcontrols)].
    2:{ unfold controls_enabled in Hcontrols. congruence. }
    split; [|split].
    + simpl. by destruct (window s).
    + simpl. destruct (window s). simpl. lia.
    + left. unfold idle. simpl. repeat split; [done|by destruct (window s)|].
      rewrite <- Hcontrols. by destruct (window s) as [? ? ? ? [] ? ? ? ? ? ? ? ?].
  - (* transcribe_clicked *)
    destruct (transcribe_btn_enabled (window s)) eqn:Hbtn; [|done].
    destruct Hstate as [(Hthreads & Hworker & Hcontrols) | (w & t & _ & _ & _ & _ & Hcontrols)].
    2:{ unfold controls_enabled in Hcontrols. congruence. }
    unfold start_transcription.
    destruct (_ || _) eqn:Hbad; simpl.
    + split; [by destruct (window s)|]. split; [by destruct (window s)|].
      left. unfold idle. simpl. rewrite Hthreads.
      repeat split; by destruct (window s).
    + split; [by destruct (window s)|]. split; [by destruct (window s)|].
      right. unfold busy. simpl. rewrite Hthreads.
      eexists _, _. split; [done|]. split; [by left|].
      split; [by destruct (window s)|]. split; [|by destruct (window s)].
      simpl. pose proof (currentText_in_items _ Hitems Hindex).
      by destruct (window s).
  - (* thread_scheduled *)
    destruct (threads s !! i) as [[w'|queue]|] eqn:Hi; [|done..].
    destruct Hstate as [(Hthreads & _) | (w & t & Hthreads & Ht & Hworker & Hmodel & Hcontrols)].
    { rewrite Hthreads in Hi. done. }
    rewrite Hthreads in Hi. destruct i as [|i]; [|done].
    injection Hi as ->.
    destruct Ht as [[= ->] | (queue & [=] & _)].
    pose proof (run_thread_ends_with_terminal env w (files s)) as Hqueue.
    split; [done|]. split; [done|]. right.
    exists w, (Reporting (fst (run_thread env w (files s)))).
    cbn [threads window]. rewrite Hthreads.
    repeat split; [|done..]. right. by eexists.
  - (* signal_delivered *)
    destruct (threads s !! i) as [[w'|[|sig queue]]|] eqn:Hi; [done| | |done].
    all: destruct Hstate
      as [(Hthreads & _) | (w & t & Hthreads & Ht & Hworker & Hmodel & Hcontrols)];
      [by rewrite Hthreads in Hi|].
    all: rewrite Hthreads in Hi; destruct i as [|i]; [|done]; simplify_eq/=.
    all: destruct Ht as [[=] | (queue' & [= <-] & earlier & term & Hq & Hearlier & Hterm)].
    { by destruct earlier. }
    destruct earlier as [|sig' earlier]; simplify_eq/=.
    + (* the terminal signal *)
      split; [by destruct term, (window s)|].
      split; [by destruct term, (window s)|].
      left. unfold idle. simpl. rewrite Hthreads.
      destruct term; try done; by destruct (window s).
    + (* a signal that is not terminal *)
      apply Forall_cons in Hearlier as [Hsig Hearlier].
      assert (Hsame : model_combo (deliver sig' (window s)) = model_combo (window s)
                      ∧ worker (deliver sig' (window s)) = worker (window s)
                      ∧ controls_enabled (deliver sig' (window s))
                        = controls_enabled (window s)).
      { destruct sig'; try done; by destruct (window s). }
      destruct Hsame as (Hcombo' & Hworker' & Hcontrols').
      unfold consistent, busy. simpl. rewrite Hcombo', Hworker', Hcontrols'.
      split; [done|]. split; [done|]. right.
      exists w, (Reporting (earlier ++ [term])).
      destruct (earlier ++ [term]) eqn:Hrest; [by destruct earlier|].
      rewrite Hthreads. simpl. repeat split; [|done..].
      right. eexists. split; [done|]. exists earlier, term. by rewrite Hrest.
  - (* disk_changed *)
    done.
Qed.

Lemma reachable_consistent s : reachable s → consistent s.
Proof.
  intros (fs & evs & ->). unfold run_events.
  induction evs as [|ev evs IH] using rev_ind.
  - apply boot_consistent.
  - rewrite foldl_app. simpl. by apply step_consistent.
Qed.

(** C5: in every state the application can reach, at most one worker
    thread is alive.  While one is (spawned, running or with signals still
    to deliver), all four input controls are disabled and the [worker]
    attribute is set, so a click on the start button changes nothing, and
    neither does a click on the browse button or a choice in the model
    selector: no second job is started.  The [worker] attribute is [None]
    exactly when no thread is alive. *)
Theorem one_job_at_a_time (s : System) :
  reachable s →
  (length (threads s) ≤ 1)%nat
  ∧ (threads s ≠ [] →
     controls_enabled (window s) = [false; false; false; false]
     ∧ is_Some (worker (window s))
     ∧ step s transcribe_clicked = s
     ∧ (∀ filepath, step s (browse_clicked filepath) = s)
     ∧ (∀ i, step s (model_activated i) = s))
  ∧ (threads s = [] ↔ worker (window s) = None).
Proof.
  intros (_ & _ & [(Hthreads & Hworker & _)
                  | (w & t & Hthreads & _ & Hworker & _ & Hcontrols)])%reachable_consistent.
  - rewrite Hthreads, Hworker. simpl. split; [lia|]. by split.
  - rewrite Hthreads, Hworker. simpl. split; [lia|]. split; [|done].
    intros _. split; [done|]. split; [by eexists|].
    unfold controls_enabled in Hcontrols.
    injection Hcontrols as Hbrowse _ Hcombo Hbtn.
    unfold step. rewrite Hbrowse, Hcombo, Hbtn. done.
Qed.

Lemma one_job_at_a_time_witness :
  threads (run_events (boot sample_disk)
             [browse_clicked "sample.wav"; transcribe_clicked])
  = [Spawned {| audio_path := "sample.wav"; model_name := "medium" |}]
  ∧ step (run_events (boot sample_disk)
            [browse_clicked "sample.wav"; transcribe_clicked])
      transcribe_clicked
    = run_events (boot sample_disk)
        [browse_clicked "sample.wav"; transcribe_clicked].
Proof.
  split; [by vm_compute|].
  refine (proj1 (proj2 (proj2 (proj1 (proj2
            (one_job_at_a_time
               (run_events (boot sample_disk)
                  [browse_clicked "sample.wav"; transcribe_clicked])
               _)) _)))).
  - by exists sample_disk, [browse_clicked "sample.wav"; transcribe_clicked].
  - by vm_compute.
Defined.

(** The guard is the disabled button and nothing else: the method itself,
    called on a busy window, would replace the worker and start another
    thread. *)
Remark start_transcription_has_no_guard :
  snd (start_transcription sample_disk
         (window (run_events (boot sample_disk)
                    [browse_clicked "sample.wav"; transcribe_clicked])))
  = Some {| audio_path := "sample.wav"; model_name := "medium" |}.
Proof. by vm_compute. Qed.

(** C8: the model selector offers exactly four model sizes, [base],
    [small], [medium] and [large-v2], all different, and the one selected
    at start-up is [medium], which the source names as the best trade-off
    between accuracy and speed.  The selector is not editable: in every
    state the application can reach the list is the same and the current
    text is one of the four, and so is the model name of every worker. *)
Theorem model_choices :
  items (model_combo init_ui) = ["base"; "small"; "medium"; "large-v2"]
  ∧ length (items (model_combo init_ui)) = 4%nat
  ∧ NoDup (items (model_combo init_ui))
  ∧ currentText (model_combo init_ui) = "medium"
  ∧ ∀ s, reachable s →
         items (model_combo (window s)) = ["base"; "small"; "medium"; "large-v2"]
         ∧ currentText (model_combo (window s)) ∈ ["base"; "small"; "medium"; "large-v2"]
         ∧ ∀ w, worker (window s) = Some w →
                model_name w ∈ ["base"; "small"; "medium"; "large-v2"].
Proof.
  split; [done|]. split; [done|]. split; [by apply (bool_decide_unpack _)|].
  split; [done|].
  intros s (Hitems & Hindex & Hstate)%reachable_consistent.
  split; [done|]. split.
  - pose proof (currentText_in_items _ Hitems Hindex) as Hin.
    by rewrite Hitems in Hin.
  - intros w Hw.
    destruct Hstate as [(_ & Hnone & _) | (w' & _ & _ & _ & Hworker & Hmodel & _)].
    + congruence.
    + rewrite Hitems in Hmodel. congruence.
Qed.

Lemma model_choices_witness :
  currentText (model_combo init_ui) = "medium"
  ∧ currentText
      (model_combo
         (window (run_events (boot sample_disk) [model_activated 3; model_activated 7])))
    ∈ ["base"; "small"; "medium"; "large-v2"].
Proof.
  destruct model_choices as (_ & _ & _ & Hdefault & Hreach).
  split; [exact Hdefault|].
  apply (Hreach (run_events (boot sample_disk) [model_activated 3; model_activated 7])).
  by exists sample_disk, [model_activated 3; model_activated 7].
Defined.

(** * Further properties of the code *)

(** ** Names *)

Module name_facts.
Import str_facts os_path_facts.

Lemma take_append a b : str.take (String.length a) (a +:+ b) = a.
Proof.
  induction a as [|x a IH]; [by destruct b|].
  rewrite app_String. simpl. by rewrite IH.
Qed.

Lemma take_drop k s : str.take k s +:+ str.drop k s = s.
Proof.
  revert s. induction k as [|k IH]; intros [|x s]; simpl; try done.
  rewrite app_String. by rewrite IH.
Qed.

Lemma len_append a b : str.len (a +:+ b) = (str.len a + str.len b)%Z.
Proof. unfold str.len. rewrite length_append. lia. Qed.

(** [p[i:i+1]] is the character at [i]. *)
Lemma slice_at a c b :
  str.slice (a +:+ String c b) (str.len a) (str.len a + 1) = String c "".
Proof.
  unfold str.slice.
  assert (Hlen : str.len (a +:+ String c b) = (str.len a + 1 + str.len b)%Z).
  { rewrite len_append. unfold str.len. simpl. lia. }
  rewrite !clamp_in_range by (unfold str.len in *; lia).
  unfold str.len.
  replace (Z.to_nat (Z.of_nat (String.length a) + 1) - Z.to_nat (Z.of_nat (String.length a)))%nat
    with 1%nat by lia.
  rewrite Nat2Z.id, drop_append. done.
Qed.

Lemma only_char_false c n :
  only_char c n = false →
  ∃ dots x rest, n = dots +:+ String x rest ∧ only_char c dots = true ∧ x ≠ c.
Proof.
  induction n as [|a n IH]; simpl; [done|].
  destruct (Ascii.eqb_spec a c) as [->|Hne]; simpl.
  - intros (dots & x & rest & -> & Hdots & Hx)%IH.
    exists (String c dots), x, rest. simpl. by rewrite Ascii.eqb_refl.
  - intros _. by exists "", a, n.
Qed.

Lemma slice_to_0 p : str.slice_to p 0 = "".
Proof.
  unfold str.slice_to. rewrite clamp_in_range; [done|]. unfold str.len. lia.
Qed.

(** The loop of [_splitext] stops at the first character that is not a
    dot, when there is one before [dotIndex]. *)
Lemma skip_found dots : ∀ pre x rest p j,
  only_char os_path.extsep dots = true → x ≠ os_path.extsep →
  p = pre +:+ dots +:+ String x rest →
  (str.len pre + str.len dots < j)%Z →
  os_path.skip_leading_dots (Z.to_nat (j - str.len pre)) p (str.len pre) j
  = (str.slice_to p j, str.slice_from p j).
Proof.
  induction dots as [|d dots IH]; intros pre x rest p j Hdots Hx -> Hj.
  - rewrite app_nil. unfold str.len in Hj. simpl in Hj.
    destruct (Z.to_nat (j - str.len pre)) as [|k] eqn:Hk; [unfold str.len in *; lia|].
    simpl. rewrite slice_at.
    destruct (String.eqb_spec (String x "") (String os_path.extsep "")) as [Heq|_];
      [|done].
    by injection Heq.
  - simpl in Hdots. apply andb_true_iff in Hdots as [Hd Hdots].
    apply Ascii.eqb_eq in Hd as ->.
    assert (Hlen : str.len (String os_path.extsep dots) = (str.len dots + 1)%Z).
    { unfold str.len. simpl. lia. }
    rewrite Hlen in Hj.
    destruct (Z.to_nat (j - str.len pre)) as [|k] eqn:Hk; [unfold str.len in *; lia|].
    rewrite app_String. simpl. rewrite slice_at. simpl.
    rewrite <- append_cons.
    replace (str.len pre + 1)%Z with (str.len (pre +:+ String os_path.extsep "")).
    2:{ rewrite len_append. unfold str.len. simpl. lia. }
    replace k with (Z.to_nat (j - str.len (pre +:+ String os_path.extsep ""))).
    2:{ rewrite len_append. unfold str.len in *. simpl. lia. }
    apply (IH _ x rest); [done..|]. rewrite len_append. unfold str.len in *. simpl. lia.
Qed.

(** The loop runs out when only dots stand before [dotIndex]. *)
Lemma skip_exhausted dots : ∀ pre rest p,
  only_char os_path.extsep dots = true →
  p = pre +:+ dots +:+ rest →
  os_path.skip_leading_dots (String.length dots) p (str.len pre)
    (str.len pre + str.len dots)
  = (p, "").
Proof.
  induction dots as [|d dots IH]; intros pre rest p Hdots ->.
  - simpl. by rewrite slice_to_0.
  - simpl in Hdots. apply andb_true_iff in Hdots as [Hd Hdots].
    apply Ascii.eqb_eq in Hd as ->.
    rewrite app_String. simpl. rewrite slice_at. simpl.
    rewrite <- append_cons.
    replace (str.len pre + 1)%Z with (str.len (pre +:+ String os_path.extsep "")).
    2:{ rewrite len_append. unfold str.len. simpl. lia. }
    replace (str.len pre + str.len (String os_path.extsep dots))%Z
      with (str.len (pre +:+ String os_path.extsep "") + str.len dots)%Z.
    2:{ rewrite len_append. unfold str.len. simpl. lia. }
    by apply (IH _ rest).
Qed.

(** [splitext] splits a name at its last dot, when something other than
    dots stands before it. *)
Lemma splitext_ext n e :
  str.contains_char os_path.sep (n +:+ String os_path.extsep e) = false →
  str.contains_char os_path.extsep e = false →
  only_char os_path.extsep n = false →
  os_path.splitext (n +:+ String os_path.extsep e) = (n, String os_path.extsep e).
Proof.
  intros Hsep He Hn.
  unfold os_path.splitext, os_path._splitext.
  rewrite (rfind_absent _ _ Hsep), (rfind_join n _ e He).
  destruct (Z.ltb_spec (-1) (Z.of_nat (String.length n))) as [_|]; [|lia].
  destruct (only_char_false _ _ Hn) as (dots & x & rest & Hdec & Hdots & Hx).
  replace (-1 + 1)%Z with (str.len "") by done.
  replace (Z.of_nat (String.length n) - str.len "")%Z
    with (Z.of_nat (String.length n) - str.len "")%Z by done.
  rewrite (skip_found dots "" x (rest +:+ String os_path.extsep e)); [|done..| |].
  - unfold str.slice_to, str.slice_from.
    rewrite clamp_in_range by (rewrite len_append; unfold str.len; lia).
    rewrite Nat2Z.id, take_append, drop_append. done.
  - rewrite app_nil, Hdec. rewrite app_assoc. by rewrite app_String.
  - rewrite Hdec. unfold str.len. rewrite length_append. simpl. lia.
Qed.

(** [splitext] strips nothing from a name whose only dots are leading. *)
Lemma splitext_no_ext dots r :
  only_char os_path.extsep dots = true →
  str.contains_char os_path.extsep r = false →
  str.contains_char os_path.sep (dots +:+ r) = false →
  os_path.splitext (dots +:+ r) = (dots +:+ r, "").
Proof.
  intros Hdots Hr Hsep.
  unfold os_path.splitext, os_path._splitext.
  rewrite (rfind_absent _ _ Hsep).
  destruct dots as [|d dots].
  - rewrite app_nil, (rfind_absent _ _ Hr). simpl. by rewrite slice_to_0.
  - assert (Hsnoc : ∀ t, only_char os_path.extsep t = true →
                         String os_path.extsep t = t +:+ String os_path.extsep "").
    { induction t as [|a t IH]; [done|]. simpl.
      intros [->%Ascii.eqb_eq Ht]%andb_true_iff.
      rewrite app_String. f_equal. by apply IH. }
    simpl in Hdots. apply andb_true_iff in Hdots as [->%Ascii.eqb_eq Hdots].
    rewrite (Hsnoc dots Hdots), append_cons, (rfind_join dots _ r Hr).
    destruct (Z.ltb_spec (-1) (Z.of_nat (String.length dots))) as [_|]; [|lia].
    replace (Z.to_nat (Z.of_nat (String.length dots) - (-1 + 1)))
      with (String.length dots) by lia.
    by rewrite (skip_exhausted dots "" (String os_path.extsep r)).
Qed.


(** A found character heads what follows its last occurrence. *)
Lemma rfind_drop s c :
  (0 ≤ str.rfind s c)%Z →
  ∃ e, str.drop (Z.to_nat (str.rfind s c)) s = String c e
       ∧ str.contains_char c e = false.
Proof.
  induction s as [|a s IH]; simpl; [lia|].
  pose proof (rfind_bounds s c) as Hb.
  destruct (Z.leb_spec 0 (str.rfind s c)) as [Hr|Hr].
  - intros _. destruct (IH Hr) as (e & He & Hc). exists e.
    replace (Z.to_nat (str.rfind s c + 1)) with (S (Z.to_nat (str.rfind s c))) by lia.
    done.
  - destruct (Ascii.eqb_spec a c) as [->|]; [|lia].
    intros _. exists s. split; [done|]. apply absent_rfind. lia.
Qed.

Lemma skip_leading_dots_cases n p i j :
  os_path.skip_leading_dots n p i j = (p, "")
  ∨ os_path.skip_leading_dots n p i j = (str.slice_to p j, str.slice_from p j).
Proof.
  revert i. induction n as [|n IH]; intros i; simpl.
  - left. by rewrite slice_to_0.
  - destruct (negb _); [by right|]. apply IH.
Qed.

(** Right cancellation for string concatenation. *)
Lemma app_inv_tail t : ∀ u suffix, t +:+ suffix = u +:+ suffix → t = u.
Proof.
  induction t as [|a t IH]; intros [|b u] suffix Heq.
  - done.
  - apply (f_equal String.length) in Heq.
    rewrite app_nil, length_append in Heq. simpl in Heq. lia.
  - apply (f_equal String.length) in Heq.
    rewrite app_nil, length_append in Heq. simpl in Heq. lia.
  - rewrite !app_String in Heq. injection Heq as -> Heq.
    f_equal. by apply (IH u suffix).
Qed.

Lemma app_inv_head s : ∀ t u, s +:+ t = s +:+ u → t = u.
Proof.
  induction s as [|a s IH]; intros t u Heq; [done|].
  rewrite !app_String in Heq. injection Heq as Heq. by apply IH.
Qed.


End name_facts.

(** X1: when the last component of the audio path is [n.e], with no dot in
    [e] and something other than dots in [n], the output file is named
    [n_<model>_transcript.txt]: the directory is dropped and exactly the
    last extension is stripped. *)
Theorem output_name_of_named_file (p n e m : string) :
  os_path.basename p = n +:+ "." +:+ e →
  str.contains_char os_path.extsep e = false →
  only_char os_path.extsep n = false →
  output_filename p m = n +:+ "_" +:+ m +:+ "_transcript.txt".
Proof.
  intros Hlast He Hn. unfold output_filename, base_name.
  pose proof (os_path_facts.basename_no_sep p) as Hsep.
  rewrite Hlast in *.
  change ("." +:+ e) with (String os_path.extsep e) in *.
  by rewrite name_facts.splitext_ext.
Qed.

Lemma output_name_of_named_file_witness :
  output_filename "/home/ann/talk.final.mp3" "small"
  = "talk.final_small_transcript.txt".
Proof.
  apply (output_name_of_named_file "/home/ann/talk.final.mp3" "talk.final" "mp3"
           "small"); reflexivity.
Defined.

(** X2: when the last component of the audio path has no dot after its
    leading dots (no extension, or a hidden file such as [.hidden]),
    nothing is stripped: the output file is named
    [<last component>_<model>_transcript.txt]. *)
Theorem output_name_without_extension (p dots r m : string) :
  os_path.basename p = dots +:+ r →
  only_char os_path.extsep dots = true →
  str.contains_char os_path.extsep r = false →
  output_filename p m = os_path.basename p +:+ "_" +:+ m +:+ "_transcript.txt".
Proof.
  intros Hlast Hdots Hr. unfold output_filename, base_name.
  pose proof (os_path_facts.basename_no_sep p) as Hsep.
  rewrite Hlast in *.
  by rewrite name_facts.splitext_no_ext.
Qed.

Lemma output_name_without_extension_witness :
  output_filename "/home/ann/.hidden" "base" = ".hidden_base_transcript.txt".
Proof.
  apply (output_name_without_extension "/home/ann/.hidden" "." "hidden" "base");
    reflexivity.
Defined.

(** X3: the base name used for the output is the last component of the
    audio path minus at most one extension: what is left out is empty, or
    a dot followed by characters none of which is a dot. *)
Theorem base_name_strips_one_extension (p : string) :
  ∃ ext, os_path.basename p = base_name p +:+ ext
         ∧ (ext = ""
            ∨ ∃ e, ext = String os_path.extsep e
                   ∧ str.contains_char os_path.extsep e = false).
Proof.
  unfold base_name, os_path.splitext, os_path._splitext.
  set (b := os_path.basename p).
  assert (Hnone : b = b +:+ "").
  { clear. induction b as [|a b IH]; [done|].
    rewrite str_facts.app_String. by rewrite <- IH. }
  destruct (Z.ltb_spec (str.rfind b os_path.sep) (str.rfind b os_path.extsep))
    as [Hlt|_].
  2:{ exists "". simpl. split; [done|by left]. }
  destruct (name_facts.skip_leading_dots_cases
              (Z.to_nat (str.rfind b os_path.extsep - (str.rfind b os_path.sep + 1)))
              b (str.rfind b os_path.sep + 1) (str.rfind b os_path.extsep))
    as [-> | ->].
  { exists "". simpl. split; [done|by left]. }
  pose proof (str_facts.rfind_bounds b os_path.sep).
  pose proof (str_facts.rfind_bounds b os_path.extsep).
  exists (str.slice_from b (str.rfind b os_path.extsep)). simpl.
  unfold str.slice_to, str.slice_from.
  rewrite str_facts.clamp_in_range by lia.
  split; [by rewrite name_facts.take_drop|]. right.
  apply name_facts.rfind_drop. lia.
Qed.

(** X4: under one model, two audio paths get the same output name exactly
    when they have the same base name (last component, extension
    stripped): transcripts overwrite each other in that case and in no
    other. *)
Theorem same_output_iff_same_base (p1 p2 m : string) :
  output_filename p1 m = output_filename p2 m ↔ base_name p1 = base_name p2.
Proof.
  unfold output_filename. split; [|by intros ->].
  apply name_facts.app_inv_tail.
Qed.

(** X5: for one audio path, two model names get the same output name
    exactly when they are the same model name: transcripts of one file
    made with different models never overwrite each other. *)
Theorem same_output_iff_same_model (p m1 m2 : string) :
  output_filename p m1 = output_filename p m2 ↔ m1 = m2.
Proof.
  unfold output_filename. split; [|by intros ->].
  intros Heq. apply name_facts.app_inv_head in Heq.
  apply name_facts.app_inv_head in Heq.
  by apply name_facts.app_inv_tail in Heq.
Qed.

(** ** More on the worker's run *)

Section run_facts.
Context (env : Env) (self : WhisperWorker) (fs : filesystem).

Let out := output_filename (audio_path self) (model_name self).

Lemma path_exists_insert (m : filesystem) k v q :
  path_exists m q = true → path_exists (<[k := v]> m) q = true.
Proof.
  unfold path_exists. destruct q; [done|].
  intros Hq%bool_decide_eq_true. apply bool_decide_eq_true.
  destruct (decide (k = String a q)) as [->|Hne].
  - rewrite lookup_insert_eq. by eexists.
  - by rewrite lookup_insert_ne.
Qed.

(** Everything a completed run went through. *)
Lemma complete_conditions summary :
  transcription_complete summary ∈ fst (run_thread env self fs) →
  ∃ model result full_transcript,
    path_exists fs (audio_path self) = true
    ∧ load_model env (model_name self) = Returns model
    ∧ transcribe env model (audio_path self) = Returns result
    ∧ result !! "text" = Some full_transcript
    ∧ fs !! out ≠ Some Directory
    ∧ os_open_w env out = None
    ∧ os_write env out full_transcript = None.
Proof.
  pose proof (run_thread_outcome env self fs) as Hrun.
  destruct (run_thread env self fs) as [sigs fs']. simpl in *.
  intros Hin. destruct Hrun; among Hin.
  by exists model, result, full_transcript.
Qed.

(** X8: a run whose audio path does not exist emits one signal, the error
    that names the path, and leaves the disk alone; the engine is not
    consulted, so this holds under every environment. *)
Theorem missing_audio_reported :
  path_exists fs (audio_path self) = false →
  run_thread env self fs
  = ([transcription_error ("Audio file not found at '" +:+ audio_path self +:+ "'.")],
     fs).
Proof.
  intros Hmissing. unfold run_thread, run. simpl. by rewrite Hmissing.
Qed.

(** X9: when the engine's result holds no ["text"] entry, the lookup
    raises inside the [try] block: the run ends with the error whose
    message quotes the missing key, and nothing is written. *)
Theorem missing_text_key_reported (model : Model) (result : gmap string string) :
  path_exists fs (audio_path self) = true →
  load_model env (model_name self) = Returns model →
  transcribe env model (audio_path self) = Returns result →
  result !! "text" = None →
  last (fst (run_thread env self fs))
  = Some (transcription_error
            "An unexpected error occurred: 'text'. Check FFmpeg installation and file permissions.")
  ∧ (∀ summary, transcription_complete summary ∉ fst (run_thread env self fs))
  ∧ snd (run_thread env self fs) = fs.
Proof.
  intros Hexists Hload Htr Htext.
  unfold run_thread, run. simpl. rewrite Hexists. simpl.
  unfold mbind, Py_bind, bind, try_except, call, emit. simpl.
  rewrite Hload. simpl. rewrite Htr. simpl.
  unfold getitem. rewrite Htext. simpl.
  repeat split. intros summary Hin. among Hin.
Qed.

(** X10: when the output file cannot be opened (its name is a directory,
    or the operating system refuses), the run ends with an error and the
    disk is exactly as before: an earlier transcript under that name is
    kept. *)
Theorem refused_open_changes_nothing (model : Model) (result : gmap string string)
    (full_transcript : string) :
  path_exists fs (audio_path self) = true →
  load_model env (model_name self) = Returns model →
  transcribe env model (audio_path self) = Returns result →
  result !! "text" = Some full_transcript →
  fs !! output_filename (audio_path self) (model_name self) = Some Directory
  ∨ is_Some (os_open_w env (output_filename (audio_path self) (model_name self))) →
  snd (run_thread env self fs) = fs
  ∧ ∃ message, last (fst (run_thread env self fs)) = Some (transcription_error message).
Proof.
  intros Hexists Hload Htr Htext Hrefused.
  unfold run_thread, run. simpl. rewrite Hexists. simpl.
  unfold mbind, Py_bind, bind, try_except, call, emit, open_w. simpl.
  rewrite Hload. simpl. rewrite Htr. simpl.
  unfold getitem. rewrite Htext. simpl. fold out in Hrefused |- *.
  destruct (fs !! out) as [[d|]|] eqn:Hout; simpl.
  2:{ split; [done|by eexists]. }
  all: destruct Hrefused as [[=] | [e He]]; rewrite He; simpl.
  all: split; [done|by eexists].
Qed.

(** X11: when the output file is opened and the write then raises after
    [n] bytes, the run ends with the error of that exception, and the
    output file holds the first [n] bytes of the new transcript and
    nothing of what it held before: the file was truncated when it was
    opened. *)
Theorem failed_write_leaves_partial_file (model : Model)
    (result : gmap string string) (full_transcript : string) (e : exn) (n : nat) :
  path_exists fs (audio_path self) = true →
  load_model env (model_name self) = Returns model →
  transcribe env model (audio_path self) = Returns result →
  result !! "text" = Some full_transcript →
  fs !! output_filename (audio_path self) (model_name self) ≠ Some Directory →
  os_open_w env (output_filename (audio_path self) (model_name self)) = None →
  os_write env (output_filename (audio_path self) (model_name self)) full_transcript
  = Some (e, n) →
  snd (run_thread env self fs)
  = <[output_filename (audio_path self) (model_name self)
      := RegularFile (str.take n full_transcript)]> fs
  ∧ last (fst (run_thread env self fs)) = Some (transcription_error (error_text e)).
Proof.
  intros Hexists Hload Htr Htext Hdir Hopen Hwrite.
  unfold run_thread, run. simpl. rewrite Hexists. simpl.
  unfold mbind, Py_bind, bind, try_except, call, emit, open_w, write. simpl.
  rewrite Hload. simpl. rewrite Htr. simpl.
  unfold getitem. rewrite Htext. simpl. fold out in Hdir, Hopen, Hwrite |- *.
  destruct (fs !! out) as [[d|]|] eqn:Hout; [|done|].
  all: rewrite Hopen; simpl; rewrite Hwrite; simpl.
  all: unfold file_data;
    by rewrite lookup_insert_eq, insert_insert_eq, str_facts.app_nil.
Qed.

(** X12: a run emits [transcription_complete] exactly when no step of the
    [try] block raises: the audio path exists, the model loads, the
    transcription returns a result with a ["text"] entry, and the output
    file is opened and written. *)
Theorem run_completes_iff :
  (∃ summary, transcription_complete summary ∈ fst (run_thread env self fs))
  ↔ ∃ model result full_transcript,
      path_exists fs (audio_path self) = true
      ∧ load_model env (model_name self) = Returns model
      ∧ transcribe env model (audio_path self) = Returns result
      ∧ result !! "text" = Some full_transcript
      ∧ fs !! output_filename (audio_path self) (model_name self) ≠ Some Directory
      ∧ os_open_w env (output_filename (audio_path self) (model_name self)) = None
      ∧ os_write env (output_filename (audio_path self) (model_name self))
          full_transcript = None.
Proof.
  split.
  - intros [summary Hin]. by apply (complete_conditions summary).
  - intros (model & result & text & Hexists & Hload & Htr & Htext & Hdir & Hopen & Hwrite).
    rewrite (run_completes env self fs model result text) by done.
    eexists. simpl. do 2 apply list_elem_of_further. apply list_elem_of_here.
Qed.

(** X13: running a completed job again, under the same environment and on
    the disk the first run left, emits the same signals and leaves the
    disk unchanged: the transcript is overwritten, never appended to. *)
Theorem rerun_overwrites (summary : string) :
  transcription_complete summary ∈ fst (run_thread env self fs) →
  run_thread env self (snd (run_thread env self fs)) = run_thread env self fs.
Proof.
  intros (model & result & text & Hexists & Hload & Htr & Htext & Hdir & Hopen & Hwrite)
           %complete_conditions.
  rewrite (run_completes env self fs model result text) by done. simpl.
  rewrite (run_completes env self _ model result text); try done.
  - by rewrite insert_insert_eq.
  - by apply path_exists_insert.
  - fold out. by rewrite lookup_insert_eq.
Qed.

End run_facts.



(** The premise on the model name is needed: with a separator in it the
    output name can be the audio path, and then the run opens its input
    for writing and replaces it with the transcript. *)
Remark audio_overwritten_when_model_is_a_path :
  output_filename (audio_path self_overwriting_worker)
    (model_name self_overwriting_worker)
  = audio_path self_overwriting_worker
  ∧ snd (run_thread working_env self_overwriting_worker
           {[ "x_transcript_a/x_transcript.txt" := RegularFile "RIFF" ]})
      !! "x_transcript_a/x_transcript.txt"
    = Some (RegularFile " hello world").
Proof. split; by vm_compute. Qed.

Lemma missing_audio_reported_witness :
  run_thread working_env sample_worker ∅
  = ([transcription_error "Audio file not found at 'sample.wav'."], ∅).
Proof.
  exact (missing_audio_reported working_env sample_worker ∅ eq_refl).
Defined.

Lemma missing_text_key_reported_witness :
  last (fst (run_thread textless_env sample_worker sample_disk))
  = Some (transcription_error
            "An unexpected error occurred: 'text'. Check FFmpeg installation and file permissions.")
  ∧ snd (run_thread textless_env sample_worker sample_disk) = sample_disk.
Proof.
  destruct (missing_text_key_reported textless_env sample_worker sample_disk
              {| device := "cpu" |} {[ "language" := "en" ]}
              eq_refl eq_refl eq_refl eq_refl)
    as (Hlast & _ & Hdisk).
  split; [exact Hlast | exact Hdisk].
Defined.

Lemma refused_open_changes_nothing_witness :
  snd (run_thread read_only_env sample_worker disk_with_transcript)
  = disk_with_transcript.
Proof.
  refine (proj1 (refused_open_changes_nothing read_only_env sample_worker
                   disk_with_transcript {| device := "cpu" |}
                   {[ "text" := " hello world" ]} " hello world"
                   eq_refl eq_refl eq_refl eq_refl _)).
  right. by eexists.
Defined.

Lemma failed_write_leaves_partial_file_witness :
  snd (run_thread full_disk_env sample_worker disk_with_transcript)
  = <["sample_balanced_transcript.txt" := RegularFile " hel"]> disk_with_transcript.
Proof.
  refine (proj1 (failed_write_leaves_partial_file full_disk_env sample_worker
                   disk_with_transcript {| device := "cpu" |}
                   {[ "text" := " hello world" ]} " hello world"
                   (Exception "[Errno 28] No space left on device") 4
                   eq_refl eq_refl eq_refl eq_refl _ eq_refl eq_refl)).
  by vm_compute.
Defined.

Lemma rerun_overwrites_witness :
  run_thread working_env sample_worker
    (snd (run_thread working_env sample_worker disk_with_transcript))
  = run_thread working_env sample_worker disk_with_transcript.
Proof.
  apply (rerun_overwrites working_env sample_worker disk_with_transcript
           (summary_text working_env "sample_balanced_transcript.txt" " hello world")).
  vm_compute. do 2 apply list_elem_of_further. apply list_elem_of_here.
Defined.

(** ** More on the window and the event loop *)

(** X14: a worker that [start_transcription] spawns carries the text of
    the path field and the current text of the model selector, and, run on
    the disk the validation saw, it passes its own existence check: its
    first signal is [started_transcription], never "Audio file not
    found". *)
Theorem spawned_worker_passes_its_check (env : Env) (fs : filesystem)
    (self self' : TranscriberApp) (w : WhisperWorker) :
  start_transcription fs self = (self', Some w) →
  audio_path w = path_input_text self
  ∧ model_name w = currentText (model_combo self)
  ∧ ∃ later,
      fst (run_thread env w fs)
      = started_transcription ("Loading Whisper model: " +:+ model_name w +:+ "...")
        :: later.
Proof.
  unfold start_transcription.
  destruct (_ || _) eqn:Hbad; [done|].
  intros [= <- <-]. split; [done|]. split; [done|].
  apply orb_false_iff in Hbad as [_ Hexists%negb_false_iff].
  pose proof (run_thread_outcome env
                {| audio_path := path_input_text self;
                   model_name := currentText (model_combo self) |} fs) as Hrun.
  destruct (run_thread env _ fs) as [sigs fs']. simpl in *.
  destruct Hrun as [Hmissing| | |]; [simpl in Hmissing; congruence|by eexists..].
Qed.

Lemma spawned_worker_passes_its_check_witness :
  ∃ later,
    fst (run_thread no_model_env {| audio_path := "sample.wav"; model_name := "medium" |}
           sample_disk)
    = started_transcription "Loading Whisper model: medium..." :: later.
Proof.
  refine (proj2 (proj2 (spawned_worker_passes_its_check no_model_env sample_disk
                          (select_audio_file "sample.wav" init_ui) _
                          {| audio_path := "sample.wav"; model_name := "medium" |} _))).
  by vm_compute.
Defined.

(** X15: in a reachable state with no job, choosing an existing file in
    the file dialog and clicking the start button spawns exactly one
    worker, for that file and the selected model: the path field shows the
    file, the output log is cleared, the controls are disabled and no
    message box is added.  A cancelled dialog (empty path) changes
    nothing. *)
Theorem browse_then_start (s : System) (p : string) :
  reachable s →
  threads s = [] →
  p ≠ "" →
  path_exists (files s) p = true →
  threads (run_events s [browse_clicked p; transcribe_clicked])
  = [Spawned {| audio_path := p; model_name := currentText (model_combo (window s)) |}]
  ∧ worker (window (run_events s [browse_clicked p; transcribe_clicked]))
    = Some {| audio_path := p; model_name := currentText (model_combo (window s)) |}
  ∧ path_input_text (window (run_events s [browse_clicked p; transcribe_clicked])) = p
  ∧ output_text (window (run_events s [browse_clicked p; transcribe_clicked])) = ""
  ∧ controls_enabled (window (run_events s [browse_clicked p; transcribe_clicked]))
    = [false; false; false; false]
  ∧ message_boxes (window (run_events s [browse_clicked p; transcribe_clicked]))
    = message_boxes (window s)
  ∧ step s (browse_clicked "") = s.
Proof.
  intros (_ & _ & Hstate)%reachable_consistent Hthreads Hp Hexists.
  destruct Hstate as [(_ & _ & Hcontrols) | (w & t & Hbusy & _)]; [|congruence].
  destruct s as [win fs thr]. simpl in *. subst thr.
  unfold controls_enabled in Hcontrols.
  injection Hcontrols as Hbrowse Hpath Hcombo Hbtn.
  unfold run_events. simpl. rewrite Hbrowse. simpl.
  unfold select_audio_file.
  destruct (String.eqb_spec p "") as [|_]; [done|]. simpl.
  rewrite Hbtn. unfold start_transcription. simpl. rewrite Hexists.
  destruct (String.eqb_spec p "") as [|_]; [done|]. simpl.
  by destruct win.
Qed.

Lemma browse_then_start_witness :
  threads (run_events (boot sample_disk) [browse_clicked "sample.wav"; transcribe_clicked])
  = [Spawned {| audio_path := "sample.wav"; model_name := "medium" |}].
Proof.
  refine (proj1 (browse_then_start (boot sample_disk) "sample.wav" _ eq_refl _ eq_refl)).
  - by exists sample_disk, [].
  - done.
Defined.

Lemma coherent_same (a b : TranscriberApp) :
  controls_enabled a = controls_enabled b →
  progress_bar_visible a = progress_bar_visible b →
  transcribe_btn_text a = transcribe_btn_text b →
  coherent b → coherent a.
Proof. unfold coherent. intros -> -> ->. done. Qed.

Lemma step_coherent s ev : coherent (window s) → coherent (window (step s ev)).
Proof.
  intros Hcoherent.
  destruct ev as [filepath | i | | i env | i | fs]; simpl.
  - destruct (browse_btn_enabled (window s)); [|done]. simpl.
    unfold select_audio_file. destruct (negb _); [|done].
    apply (coherent_same _ (window s)); [by destruct (window s)..|done].
  - destruct (_ && _); [|done]. simpl.
    apply (coherent_same _ (window s)); [|by destruct (window s)..|done].
    by destruct (window s) as [? ? ? ? [] ? ? ? ? ? ? ? ?].
  - destruct (transcribe_btn_enabled (window s)); [|done].
    unfold start_transcription. destruct (_ || _); simpl.
    + apply (coherent_same _ (window s)); [by destruct (window s)..|done].
    + exists false. by destruct (window s).
  - by destruct (threads s !! i) as [[w|queue]|].
  - destruct (threads s !! i) as [[w|[|sig queue]]|]; try done.
    simpl. destruct sig; simpl.
    + apply (coherent_same _ (window s)); [by destruct (window s)..|done].
    + apply (coherent_same _ (window s)); [by destruct (window s)..|done].
    + exists true. by destruct (window s).
    + exists true. by destruct (window s).
  - done.
Qed.

Lemma reachable_coherent s : reachable s → coherent (window s).
Proof.
  intros (fs & evs & ->). unfold run_events.
  induction evs as [|ev evs IH] using rev_ind.
  - by exists true.
  - rewrite foldl_app. simpl. by apply step_coherent.
Qed.

(** X16: in every state the application can reach, the four input
    controls are all enabled or all disabled; the start button reads
    "Start Transcription" and the busy indicator is hidden when they are
    enabled, it reads "Processing..." and the indicator is shown when they
    are disabled; and they are enabled exactly when no worker thread is
    alive. *)
Theorem controls_follow_the_job (s : System) :
  reachable s →
  ∃ ready : bool,
    controls_enabled (window s) = [ready; ready; ready; ready]
    ∧ progress_bar_visible (window s) = negb ready
    ∧ transcribe_btn_text (window s)
      = (if ready then "Start Transcription" else "Processing...")
    ∧ (ready = true ↔ threads s = []).
Proof.
  intros Hreach.
  destruct (reachable_coherent s Hreach) as (ready & Hcontrols & Hbar & Htext).
  exists ready. split; [done|]. split; [done|]. split; [done|].
  destruct (reachable_consistent s Hreach)
    as (_ & _ & [(Hthreads & _ & Hidle) | (w & t & Hthreads & _ & _ & _ & Hbusy)]).
  - rewrite Hidle in Hcontrols. by injection Hcontrols as <-.
  - rewrite Hbusy in Hcontrols. injection Hcontrols as <-. by rewrite Hthreads.
Qed.

Lemma controls_follow_the_job_witness :
  ∃ ready : bool,
    controls_enabled
      (window (run_events (boot sample_disk)
                 [browse_clicked "sample.wav"; transcribe_clicked;
                  thread_scheduled 0 working_env; signal_delivered 0]))
    = [ready; ready; ready; ready]
    ∧ progress_bar_visible
        (window (run_events (boot sample_disk)
                   [browse_clicked "sample.wav"; transcribe_clicked;
                    thread_scheduled 0 working_env; signal_delivered 0]))
      = negb ready
    ∧ transcribe_btn_text
        (window (run_events (boot sample_disk)
                   [browse_clicked "sample.wav"; transcribe_clicked;
                    thread_scheduled 0 working_env; signal_delivered 0]))
      = (if ready then "Start Transcription" else "Processing...")
    ∧ (ready = true
       ↔ threads (run_events (boot sample_disk)
                    [browse_clicked "sample.wav"; transcribe_clicked;
                     thread_scheduled 0 working_env; signal_delivered 0])
         = []).
Proof.
  apply controls_follow_the_job.
  by exists sample_disk,
       [browse_clicked "sample.wav"; transcribe_clicked;
        thread_scheduled 0 working_env; signal_delivered 0].
Defined.

(** X17: the status messages of [started] and [progress] leave no trace.
    For every run (each engine call returning or raising an [Exception])
    and every window, running the slots of the run's signals in the order
    of emission gives the same window as running the slot of its terminal
    signal alone: the four controls enabled, the [worker] attribute
    [None], and the summary in the output log after a completed run or
    "ERROR: <message>" in the status label after a failed one. *)
Theorem slots_of_a_run_amount_to_the_last (env : Env) (w : WhisperWorker)
    (fs : filesystem) (self : TranscriberApp) :
  ∃ t, last (fst (run_thread env w fs)) = Some t
       ∧ is_terminal t = true
       ∧ deliver_all (fst (run_thread env w fs)) self = deliver t self
       ∧ worker (deliver_all (fst (run_thread env w fs)) self) = None
       ∧ controls_enabled (deliver_all (fst (run_thread env w fs)) self)
         = [true; true; true; true]
       ∧ match t with
         | transcription_complete summary =>
             output_text (deliver_all (fst (run_thread env w fs)) self) = summary
         | transcription_error message =>
             status_label_text (deliver_all (fst (run_thread env w fs)) self)
             = "ERROR: " +:+ message
         | _ => False
         end.
Proof.
  pose proof (run_thread_outcome env w fs) as Hrun.
  destruct (run_thread env w fs) as [sigs fs']. cbn [fst snd] in *.
  unfold deliver_all.
  destruct Hrun; eexists; (split; [reflexivity|]); by destruct self.
Qed.

(** X18: when the audio file is gone by the time the spawned thread runs
    (the disk changed after the validation), the job still ends cleanly:
    after the run and the delivery of its single signal the disk is
    untouched, no thread is left, the status label and one more critical
    box carry "Audio file not found at '<path>'.", and the controls are
    enabled again. *)
Theorem vanished_file_reported (s : System) (w : WhisperWorker) (env : Env) :
  threads s = [Spawned w] →
  path_exists (files s) (audio_path w) = false →
  threads (run_events s [thread_scheduled 0 env; signal_delivered 0]) = []
  ∧ files (run_events s [thread_scheduled 0 env; signal_delivered 0]) = files s
  ∧ status_label_text (window (run_events s [thread_scheduled 0 env; signal_delivered 0]))
    = "ERROR: " +:+ "Audio file not found at '" +:+ audio_path w +:+ "'."
  ∧ message_boxes (window (run_events s [thread_scheduled 0 env; signal_delivered 0]))
    = message_boxes (window s)
      ++ [QMessageBox_critical "Transcription Error"
            ("Audio file not found at '" +:+ audio_path w +:+ "'.")]
  ∧ worker (window (run_events s [thread_scheduled 0 env; signal_delivered 0])) = None
  ∧ controls_enabled (window (run_events s [thread_scheduled 0 env; signal_delivered 0]))
    = [true; true; true; true].
Proof.
  intros Hthreads Hmissing.
  destruct s as [win fs thr]. cbn [threads files window] in *. subst thr.
  unfold run_events. cbn -[run_thread].
  unfold run_thread, run. cbn [disk emitted]. rewrite Hmissing. cbn.
  by destruct win.
Qed.

Lemma vanished_file_reported_witness :
  status_label_text
    (window (run_events
               (run_events (boot sample_disk)
                  [browse_clicked "sample.wav"; transcribe_clicked; disk_changed ∅])
               [thread_scheduled 0 working_env; signal_delivered 0]))
  = "ERROR: Audio file not found at 'sample.wav'.".
Proof.
  exact (proj1 (proj2 (proj2 (vanished_file_reported
                  (run_events (boot sample_disk)
                     [browse_clicked "sample.wav"; transcribe_clicked; disk_changed ∅])
                  {| audio_path := "sample.wav"; model_name := "medium" |}
                  working_env eq_refl eq_refl)))).
Defined.

(** X19: the slots of one run show at most one message box: a run that
    ends with an error adds exactly one critical box, carrying the error's
    message, and a run that completes adds none. *)
Theorem one_box_per_failed_job (env : Env) (w : WhisperWorker) (fs : filesystem)
    (self : TranscriberApp) :
  message_boxes (deliver_all (fst (run_thread env w fs)) self)
  = message_boxes self
    ++ match last (fst (run_thread env w fs)) with
       | Some (transcription_error message) =>
           [QMessageBox_critical "Transcription Error" message]
       | _ => []
       end.
Proof.
  pose proof (run_thread_outcome env w fs) as Hrun.
  destruct (run_thread env w fs) as [sigs fs']. cbn [fst snd] in *.
  unfold deliver_all.
  destruct Hrun; cbn; destruct self; cbn; by rewrite ?app_nil_r.
Qed.
